(** * ServerStatusBot: the authorization model and command routing of bot.py

    A shallow embedding of [bot.py]: the command line, the permission
    document, the startup load of the permissions file, [perm_check], the
    audit log, and the commands [status], [restart], [kill], [start],
    [cmd], [get_logs], [permissions] and [dump_perms], followed by the
    properties of the specification that are settled against them.

    Conventions of the embedding.
    - The module-level globals ([json_permissions], the two files, the
      docker client) and everything a command does to the outside (log
      lines, backend calls, messages) live in one [world] record that is
      threaded through a state-and-exception monad [M].
    - Python exceptions are the [Raise] results of that monad; the effects
      performed before an exception stay in the world.
    - What the libraries do around the code is part of the model where a
      command depends on it: the docker client (a lookup or an operation
      on a container returns or raises), the chat transport (a message is
      taken or refused), and the command framework (a command registered
      with [enabled=False] is refused before its body runs, and an
      argument annotated [int] is converted before the body sees it).
    - A JSON object is a [gmap string value]; a JSON value of the
      permission file is a string or a list of strings.  A text is held
      as the bytes of its UTF-8 encoding.
    - Time stamps of log lines and the typing indicator of the chat
      transport are left out, and so are [bot_uptime] and the stubs
      [backup], [restore], [list_backups]. *)

From Stdlib Require Import ZArith String Ascii List Lia Bool.
From stdpp Require Import base option list gmap strings pretty.

Local Open Scope stdpp_scope.

(** ** Python values, exceptions, results *)

(** The values stored under the keys of a server entry: ["name"] holds a
    string, every action key a list of user ids. *)
Inductive value :=
  | VStr (s : string)
  | VList (l : list string).

Global Instance value_eq_dec : EqDecision value.
Proof. solve_decision. Defined.

Inductive exception :=
  | KeyError (key : string)
  | TypeError
  | AttributeError
  | IndexError
  | ValueError
  | UnicodeDecodeError
  | JSONDecodeError
  | PermissionError
  | OSError
  | SystemExit
  | NotFound            (* docker.errors.NotFound *)
  | APIError            (* any other failure of the docker client *)
  | HTTPException       (* discord.HTTPException, Forbidden included *)
  | BadArgument         (* discord.ext.commands.BadArgument *)
  | DisabledCommand.    (* discord.ext.commands.DisabledCommand *)

Global Instance exception_eq_dec : EqDecision exception.
Proof. solve_decision. Defined.

Inductive result (A : Type) :=
  | Ok (a : A)
  | Raise (e : exception).
Arguments Ok {A} a.
Arguments Raise {A} e.

Definition nl : string := String "010"%char "".

(** [x in v]: list membership, or the substring test when [v] is a string. *)
Definition py_in (x : string) (v : value) : bool :=
  match v with
  | VList l => bool_decide (x ∈ l)
  | VStr s => match String.index 0 x s with Some _ => true | None => false end
  end.

(** Iterating over a value: the items of a list, the characters of a string. *)
Fixpoint chars (s : string) : list string :=
  match s with
  | EmptyString => []
  | String c r => String c "" :: chars r
  end.

Definition py_iter (v : value) : list string :=
  match v with
  | VList l => l
  | VStr s => chars s
  end.

(** [str(v)]; for a list the quoting rules of [repr] are reduced to single
    quotes, which is exact for items without quotes, backslashes or control
    characters. *)
Definition py_str (v : value) : string :=
  match v with
  | VStr s => s
  | VList l => "[" +:+ String.concat ", " (map (λ s, "'" +:+ s +:+ "'") l) +:+ "]"
  end.

(** [len(s)], the number of code points of a text: in UTF-8 every byte
    but a continuation byte (10xxxxxx) starts one. *)
Definition continuation (c : ascii) : bool :=
  (128 <=? nat_of_ascii c)%nat && (nat_of_ascii c <? 192)%nat.

Fixpoint py_len (s : string) : nat :=
  match s with
  | EmptyString => 0
  | String c r => (if continuation c then 0 else 1) + py_len r
  end.

(** [str.title()] on ASCII text: a letter that follows a letter is lowered,
    any other letter is raised. *)
Definition is_upper (c : ascii) : bool :=
  (65 <=? nat_of_ascii c)%nat && (nat_of_ascii c <=? 90)%nat.
Definition is_lower (c : ascii) : bool :=
  (97 <=? nat_of_ascii c)%nat && (nat_of_ascii c <=? 122)%nat.
Definition to_upper (c : ascii) : ascii :=
  if is_lower c then ascii_of_nat (nat_of_ascii c - 32) else c.
Definition to_lower (c : ascii) : ascii :=
  if is_upper c then ascii_of_nat (nat_of_ascii c + 32) else c.

Fixpoint title_from (previous_is_cased : bool) (s : string) : string :=
  match s with
  | EmptyString => EmptyString
  | String c r =>
      String (if previous_is_cased then to_lower c else to_upper c)
             (title_from (is_upper c || is_lower c) r)
  end.

Definition title (s : string) : string := title_from false s.

(** ** The permission document, the backend and the chat context *)

(** [json_permissions]: [admins] is [json_permissions["users"]["admins"]],
    [servers] is [json_permissions["servers"]]. *)
Record document := {
  admins : list string;
  servers : list (gmap string value);
}.

(** A value that [json.load] hands out, [null] apart: a document, or a
    value that is none.  Of the latter the code only ever evaluates
    [json_permissions["users"]["admins"]], its first step in every
    command, so it is given by the exception this raises: TypeError for
    an array or a scalar, the KeyError of the missing key for an object. *)
Inductive json_value :=
  | Document (d : document)
  | Other_value (e : exception).

(** A document is read as the value that holds it, also under [Some],
    where the global or the content of a file is expected. *)
Coercion Document : document >-> json_value.
Arguments Some {A} & a.

(** What PERMISSIONS_FILE holds.  [Json v] is a text that [json.load] reads
    as [v]; for a document it is also the text that
    [json.dumps(d, indent=4, sort_keys=True)] writes.  [Json_null] is the
    text [null], which [json.load] reads as [None]. *)
Inductive file_content :=
  | Zero_bytes
  | Json (v : json_value)
  | Json_null
  | Malformed.

(** PERMISSIONS_FILE as the process finds it. *)
Inductive file :=
  | Absent                               (* open raises FileNotFoundError *)
  | Uncreatable (e : exception)          (* absent, and creating it raises [e] *)
  | Denied (errno strerror : string)     (* open raises PermissionError *)
  | Faulty (errno strerror : string)     (* open raises another OSError *)
  | Present (c : file_content).

(** A container object as [containers.get] hands it out.  Its attributes
    are those cached at the time of the call.  Its operations go to the
    backend and return or raise: NotFound when the container is gone by
    then, APIError for any other refusal (a [kill] or an [exec_run] on a
    container that is not running, for one).  [exec_run c command] is
    [c.exec_run(command).output.decode('utf-8')], so it may also raise
    UnicodeDecodeError. *)
Record container := {
  container_name : string;
  container_status : string;
  container_restart : result unit;     (* c.restart() *)
  container_kill : result unit;        (* c.kill() *)
  container_start : result unit;       (* c.start() *)
  exec_run : string → result string;
}.

(** [docker_client.containers]: [containers_list] is [list(all=True)],
    [containers_get] answers with a container or raises. *)
Record docker := {
  containers_list : list container;
  containers_get : value → result container;
}.

Inductive docker_call :=
  | Restart (name : string)
  | Kill (name : string)
  | Start (name : string)
  | Exec (name : string) (command : string).

Record field := {
  field_name : string;
  field_value : string;
  inline : bool;
}.

Record embed := {
  embed_title : string;
  fields : list field;
}.

Definition add_field (e : embed) (name val : string) (inl : bool) : embed :=
  {| embed_title := embed_title e;
     fields := fields e ++ [{| field_name := name; field_value := val; inline := inl |}] |}.

Inductive message :=
  | Embed_message (e : embed)
  | Text_message (s : string).

Inductive output :=
  | Sent (m : message)            (* ctx.send *)
  | Sent_dm (s : string)          (* ctx.author.dm_channel.send *)
  | Created_dm                    (* ctx.author.create_dm *)
  | Deleted_message.              (* ctx.message.delete(delay=5.0) *)

Inductive channel_type := Text_channel | Private_channel | Group_channel.

Record context := {
  command_name : string;       (* ctx.command.name *)
  author : string;             (* str(ctx.author) *)
  author_id : string;          (* str(ctx.author.id) *)
  channel : string;            (* str(ctx.channel) *)
  channel_kind : channel_type; (* ctx.channel.type *)
  mentions : list string;      (* str(m.id) for m in ctx.message.mentions *)
  dm_channel : bool;           (* whether ctx.author.dm_channel is set *)
  dm_opens : bool;             (* whether ctx.author.create_dm() goes through *)
  dm_accepts : string → bool;  (* whether ctx.author.dm_channel takes a text *)
}.

Record log_line := {
  category : string;
  msg : string;
}.

Record world := {
  json_permissions : option json_value; (* [None] is Python's None *)
  permissions_file : file;
  logfile : list log_line;
  docker_client : docker;
  docker_calls : list docker_call;
  outbox : list output;
  accepts : message → bool;    (* whether the transport takes a message *)
}.

(** ** The monad of commands *)

Definition M (A : Type) : Type := world → world * result A.

Definition ret {A} (a : A) : M A := λ w, (w, Ok a).

Definition bind {A B} (m : M A) (k : A → M B) : M B :=
  λ w, match m w with
       | (w', Ok a) => k a w'
       | (w', Raise e) => (w', Raise e)
       end.

Definition raise {A} (e : exception) : M A := λ w, (w, Raise e).

Definition lift {A} (r : result A) : M A := λ w, (w, r).

Global Instance M_ret : MRet M := @ret.
Global Instance M_bind : MBind M := λ A B k m, bind m k.

(** [for x in l: s = body(s, x)] *)
Fixpoint for_each {A S} (body : S → A → M S) (l : list A) (s : S) : M S :=
  match l with
  | [] => ret s
  | x :: r => s' ← body s x; for_each body r s'
  end.

Definition set_json_permissions (d : option json_value) : M unit :=
  λ w, ({| json_permissions := d; permissions_file := permissions_file w;
           logfile := logfile w; docker_client := docker_client w;
           docker_calls := docker_calls w; outbox := outbox w;
           accepts := accepts w |}, Ok tt).

Definition set_permissions_file (f : file) : M unit :=
  λ w, ({| json_permissions := json_permissions w; permissions_file := f;
           logfile := logfile w; docker_client := docker_client w;
           docker_calls := docker_calls w; outbox := outbox w;
           accepts := accepts w |}, Ok tt).

(** An operation on a container: the call goes to the backend, which
    answers with [outcome]. *)
Definition call_docker {A} (c : docker_call) (outcome : result A) : M A :=
  λ w, ({| json_permissions := json_permissions w;
           permissions_file := permissions_file w;
           logfile := logfile w; docker_client := docker_client w;
           docker_calls := docker_calls w ++ [c]; outbox := outbox w;
           accepts := accepts w |}, outcome).

(** [c.exec_run(command).output.decode('utf-8')] *)
Definition exec (c : container) (command : string) : M string :=
  call_docker (Exec (container_name c) command) (exec_run c command).

Definition emit (o : output) : M unit :=
  λ w, ({| json_permissions := json_permissions w;
           permissions_file := permissions_file w;
           logfile := logfile w; docker_client := docker_client w;
           docker_calls := docker_calls w; outbox := outbox w ++ [o];
           accepts := accepts w |}, Ok tt).

(** [await ctx.send(m)]: the transport takes the message or raises. *)
Definition send (m : message) : M unit :=
  λ w, if accepts w m then emit (Sent m) w else (w, Raise HTTPException).

(** [await ctx.author.create_dm()] *)
Definition create_dm (ctx : context) : M unit :=
  if dm_opens ctx then emit Created_dm else raise HTTPException.

(** [await ctx.author.dm_channel.send(text)] *)
Definition send_dm (ctx : context) (text : string) : M unit :=
  if dm_accepts ctx text then emit (Sent_dm text) else raise HTTPException.

(** [@bot.command(enabled=...)]: the framework runs the body of a command
    that is enabled, which is the default, and refuses the invocation of
    one that is not with DisabledCommand, before it converts an argument
    or enters the body. *)
Definition bot_command {A} (enabled : bool) (body : M A) : M A :=
  if enabled then body else raise DisabledCommand.

(** [log(msg, category)] appends one line to LOGFILE. *)
Definition log (msg : string) (category : string) : M unit :=
  λ w, ({| json_permissions := json_permissions w;
           permissions_file := permissions_file w;
           logfile := logfile w ++ [{| category := category; msg := msg |}];
           docker_client := docker_client w;
           docker_calls := docker_calls w; outbox := outbox w;
           accepts := accepts w |}, Ok tt).

Definition log_info (msg : string) : M unit := log msg "INFO".

(** [log_unauthorized(ctx, *servers)]: the text of the record, and the
    call of [log] with the category FORBIDDEN. *)
Definition unauthorized_msg (ctx : context) (servers : list string) : string :=
  "Function " +:+ command_name ctx +:+ " was called by user " +:+ author ctx
  +:+ " (id: " +:+ author_id ctx +:+ ") in channel " +:+ channel ctx +:+ " "
  +:+ "for server(s): [" +:+ String.concat ", " servers +:+ "], "
  +:+ "but user is not authorized.".

Definition log_unauthorized (ctx : context) (servers : list string) : M unit :=
  log (unauthorized_msg ctx servers) "FORBIDDEN".

(** ** Loading the permissions at process start (lines 50-69) *)

Definition PERMISSIONS_FILE : string := "./permissions.json".

Definition json_load (c : file_content) : result (option json_value) :=
  match c with
  | Json v => Ok (Some v)
  | Json_null => Ok None
  | Zero_bytes | Malformed => Raise JSONDecodeError
  end.

Definition load_permissions : M unit :=
  log_info ("Loading permissions from " +:+ PERMISSIONS_FILE +:+ "...");;
  f ← (λ w, (w, Ok (permissions_file w)));
  match f with
  | Present c =>
      v ← lift (json_load c);
      set_json_permissions v;;
      log_info "Permissions loaded."
  | Absent =>
      log "Permissions file does not exist - creating default schema." "WARNING";;
      set_permissions_file (Present Zero_bytes)        (* Path(...).touch() *)
  | Uncreatable e =>
      log "Permissions file does not exist - creating default schema." "WARNING";;
      raise e                    (* touch() raises inside the handler *)
  | Denied errno strerror =>
      log ("Permission error encountered while trying to read the permissions json file: "
           +:+ errno +:+ ": " +:+ strerror) "ERROR"
  | Faulty errno strerror =>
      log ("Error opening permissions file: " +:+ errno +:+ ": " +:+ strerror) "ERROR";;
      raise SystemExit                                 (* sys.exit() *)
  end.

(** The process as it starts: [json_permissions = None], nothing logged. *)
Definition initial_world (f : file) (d : docker) (acc : message → bool) : world :=
  {| json_permissions := None; permissions_file := f; logfile := [];
     docker_client := d; docker_calls := []; outbox := []; accepts := acc |}.

(** ** perm_check (lines 72-76) *)

(** [json_permissions["users"]["admins"]], the first look at the global
    in every command: on [None] it raises TypeError, on a value that is
    no document the exception that comes with it. *)
Definition get_permissions : M document :=
  λ w, match json_permissions w with
       | Some (Document d) => (w, Ok d)
       | Some (Other_value e) => (w, Raise e)
       | None => (w, Raise TypeError)
       end.

Definition get_docker : M docker := λ w, (w, Ok (docker_client w)).

(** [[server["name"] for server in servers if uid in server[command]]] *)
Fixpoint authorized_names (uid command : string) (l : list (gmap string value))
  : result (list value) :=
  match l with
  | [] => Ok []
  | server :: rest =>
      match server !! command with
      | None => Raise (KeyError command)
      | Some users =>
          if py_in uid users then
            match server !! "name" with
            | None => Raise (KeyError "name")
            | Some n =>
                match authorized_names uid command rest with
                | Ok names => Ok (n :: names)
                | Raise e => Raise e
                end
            end
          else authorized_names uid command rest
      end
  end.

Definition perm_check (ctx : context) : M (list value) :=
  d ← get_permissions;
  if bool_decide (author_id ctx ∈ admins d) then
    dc ← get_docker;
    mret (map (λ c, VStr (container_name c)) (containers_list dc))
  else
    lift (authorized_names (author_id ctx) (command_name ctx) (servers d)).

(** The test [target in perm_check(ctx)] that every command makes before
    it touches a target. *)
Definition is_authorized (ctx : context) (target : value) : M bool :=
  allowed ← perm_check ctx;
  mret (bool_decide (target ∈ allowed)).

(** [try: body  except exc: handler] *)
Definition try_except {A} (body : M A) (exc : exception) (handler : M A) : M A :=
  λ w, match body w with
       | (w', Raise e) => if bool_decide (e = exc) then handler w' else (w', Raise e)
       | r => r
       end.

Definition Not_Found_Invalid_Name : string := "Not Found/Invalid Name".

(** ** status (lines 86-139) *)

(** Lines 90-95: an empty argument list is replaced by [perm_check(ctx)]. *)
Definition status_targets (ctx : context) (servers : list string)
  : M (list value * bool) :=
  match servers with
  | [] => allowed ← perm_check ctx; mret (allowed, true)
  | _ => mret (VStr <$> servers, false)
  end.

(** [log_unauthorized(ctx, server)] followed by the "not found" field; the
    join inside [log_unauthorized] takes strings only. *)
Definition deny (ctx : context) (e : embed) (server : value) : M embed :=
  match server with
  | VStr s =>
      log_unauthorized ctx [s];;
      mret (add_field e s Not_Found_Invalid_Name true)
  | VList _ => raise TypeError
  end.

(** Lines 100-110: the body of the loop of the summary report. *)
Definition status_summary (ctx : context) (autofilled : bool)
    (e : embed) (server : value) : M embed :=
  authorized ← is_authorized ctx server;
  if (authorized : bool) then
    try_except
      (dc ← get_docker;
       c ← lift (containers_get dc server);
       mret (add_field e (py_str server) (title (container_status c)) true))
      NotFound
      (mret (add_field e (py_str server) Not_Found_Invalid_Name true))
  else if negb autofilled then deny ctx e server
  else mret e.

(** Lines 124-132: the fields of a running container, each the output
    of a command run in it: the name of the field, the command, and
    whether the field is inline. *)
Definition detail_probes : list (string * string * bool) :=
  [ ("Server Uptime", "uptime", true);
    ("World Size (Minecraft)", "du -h world/level.dat", true);
    ("Log Tail", "tail -n3 logs/latest.log", false) ].

(** The statements that add those fields, one after the other.  The embed
    is an object that the statements change in place: when one of them
    raises, the fields added before it are in the embed that the handler
    and the rest of the command go on with.  So the embed is handed on
    together with the exception that ended the statements, if any. *)
Fixpoint add_probes (c : container) (probes : list (string * string * bool))
    (e : embed) : M (embed * option exception) :=
  match probes with
  | [] => mret (e, None)
  | (name, command, is_inline) :: rest =>
      λ w, match exec c command w with
           | (w', Ok output) => add_probes c rest (add_field e name output is_inline) w'
           | (w', Raise ex) => (w', Ok (e, Some ex))
           end
  end.

(** Lines 116-138: the body of the loop of the detailed report.  The
    statements under [try] come first, then the handler of NotFound; any
    other exception leaves the command. *)
Definition status_detail (ctx : context) (autofilled : bool)
    (e : embed) (server : value) : M embed :=
  authorized ← is_authorized ctx server;
  if (authorized : bool) then
    dc ← get_docker;
    '(e, raised) ←
      match containers_get dc server with
      | Raise ex => mret (e, Some ex)
      | Ok c =>
          let e := add_field e "Docker Status" (title (container_status c)) true in
          if bool_decide (container_status c = "running")
          then add_probes c detail_probes e
          else mret (e, None)
      end;
    match raised with
    | None => mret e
    | Some ex =>
        if bool_decide (ex = NotFound)
        then mret (add_field e (py_str server) Not_Found_Invalid_Name true)
        else raise ex
    end
  else if negb autofilled then deny ctx e server
  else mret e.

Definition status (ctx : context) (servers : list string) : M unit :=
  log_info ("Status command received from channel " +:+ channel ctx +:+ " by "
            +:+ author ctx +:+ " (id: " +:+ author_id ctx +:+ ")");;
  '(servers, autofilled) ← status_targets ctx servers;
  if bool_decide (1 < length servers) then
    e ← for_each (status_summary ctx autofilled) servers
          {| embed_title := "Server Statuses"; fields := [] |};
    send (Embed_message e)
  else
    match servers !! 0%nat with
    | None => raise IndexError                       (* servers[0] *)
    | Some first =>
        e ← for_each (status_detail ctx autofilled) servers
              {| embed_title := py_str first +:+ " Detailed Status Report"; fields := [] |};
        send (Embed_message e)
    end.

(** ** restart, kill, start (lines 142-199)

    The three commands have one loop body; they differ in the backend
    call and in the text reported on success. *)
Definition act_on (ctx : context) (act : container → M string)
    (e : embed) (server : string) : M embed :=
  authorized ← is_authorized ctx (VStr server);
  if (authorized : bool) then
    try_except
      (dc ← get_docker;
       c ← lift (containers_get dc (VStr server));
       outcome ← act c;
       mret (add_field e server outcome true))
      NotFound
      (mret (add_field e server Not_Found_Invalid_Name true))
  else
    log_unauthorized ctx [server];;
    mret (add_field e server Not_Found_Invalid_Name true).

Definition do_restart (c : container) : M string :=
  call_docker (Restart (container_name c)) (container_restart c);;
  mret "Restart Sent".

Definition do_kill (c : container) : M string :=
  call_docker (Kill (container_name c)) (container_kill c);;
  mret ("SIGKILL Sent - status is " +:+ container_status c).

Definition do_start (c : container) : M string :=
  call_docker (Start (container_name c)) (container_start c);;
  mret (container_status c).

Definition restart (ctx : context) (servers : list string) : M unit :=
  log_info ("Executing restart command for " +:+ String.concat "," servers
            +:+ " from " +:+ channel ctx +:+ ", " +:+ "initiated by " +:+ author ctx);;
  e ← for_each (act_on ctx do_restart) servers
        {| embed_title := "Restart Results"; fields := [] |};
  send (Embed_message e).

Definition kill (ctx : context) (servers : list string) : M unit :=
  log_info ("Executing the kill command for " +:+ String.concat "," servers
            +:+ " from " +:+ channel ctx);;
  e ← for_each (act_on ctx do_kill) servers
        {| embed_title := "SIGKILL Results"; fields := [] |};
  send (Embed_message e).

Definition start (ctx : context) (servers : list string) : M unit :=
  log_info ("Executing the start command for " +:+ String.concat "," servers
            +:+ " from " +:+ channel ctx);;
  e ← for_each (act_on ctx do_start) servers
        {| embed_title := "Start Results"; fields := [] |};
  send (Embed_message e).

(** ** cmd (lines 202-216): one server, one command string

    The command is registered with [enabled=False]. *)
Definition cmd (ctx : context) (server command : string) : M unit :=
  bot_command false
    (log_info ("Executing remote command function imposed by " +:+ author ctx
               +:+ " (id: " +:+ author_id ctx +:+ ") for server " +:+ server
               +:+ " - command: " +:+ command);;
     authorized ← is_authorized ctx (VStr server);
     if (authorized : bool) then
       try_except
         (dc ← get_docker;
          c ← lift (containers_get dc (VStr server));
          cmd_output ← exec c command;
          send (Text_message ("Command output:" +:+ nl +:+ cmd_output)))
         NotFound
         (send (Text_message ("Server " +:+ server +:+ " " +:+ Not_Found_Invalid_Name)))
     else log_unauthorized ctx [server]).

(** ** get_logs (lines 310-334)

    The parameter is declared [numlines: int = 10].  The framework
    converts the word of the message before it calls the body, so the
    body is entered with an int. *)

(** Lines 314-319.  [int(numlines)] on an int is that int; it raises no
    ValueError, and the handler with its default is not entered. *)
Definition py_int (n : Z) : result Z := Ok n.

Definition parse_numlines (numlines : Z) : Z :=
  match py_int numlines with
  | Ok n => n
  | Raise _ => 10
  end.

(** The body.  Neither the lookup nor [exec_run] stands under a [try]. *)
Definition get_logs (ctx : context) (server : string) (numlines : Z) : M unit :=
  log_info ("Log retrieval command executed for server " +:+ server +:+ " by "
            +:+ author ctx +:+ " (id: " +:+ author_id ctx +:+ ")");;
  let _numlines := parse_numlines numlines in
  authorized ← is_authorized ctx (VStr server);
  if (authorized : bool) then
    dc ← get_docker;
    c ← lift (containers_get dc (VStr server));
    let log_command := "tail -n" +:+ pretty _numlines +:+ " logs/latest.log" in
    result ← exec c log_command;
    try_except
      (send (Text_message ("```" +:+ result +:+ "```")))
      HTTPException
      (send (Text_message
               ("Failed to retrieve log results.  Result length shows to be "
                +:+ pretty (py_len result)
                +:+ " - discord's limit is 2000 per message.")))
  else log_unauthorized ctx [server].

Section Invoke_get_logs.

(** [int(s)] on a string: [None] stands for ValueError. *)
Variable int_of_str : string → option Z.

(** The conversion of [numlines: int = 10]: the default when the message
    has no word for it, [int(word)] otherwise; a ValueError of [int]
    becomes BadArgument. *)
Definition convert_numlines (word : option string) : result Z :=
  match word with
  | None => Ok 10%Z
  | Some text =>
      match int_of_str text with
      | Some n => Ok n
      | None => Raise BadArgument
      end
  end.

(** [$get_logs server word]: the conversion, then the body. *)
Definition invoke_get_logs (ctx : context) (server : string) (word : option string)
  : M unit :=
  numlines ← lift (convert_numlines word);
  get_logs ctx server numlines.

End Invoke_get_logs.

(** ** permissions (lines 246-298) *)

(** The entry appended for a target that has none (lines 251-263). *)
Definition default_entry (target : string) : gmap string value :=
  list_to_map
    [("name", VStr target); ("backup", VList []); ("cmd", VList []);
     ("kill", VList []); ("list_backups", VList []); ("restart", VList []);
     ("restore", VList []); ("start", VList []); ("status", VList []);
     ("stop", VList []); ("get_logs", VList [])].

(** [[server["name"] for server in servers]] *)
Fixpoint names_of (l : list (gmap string value)) : result (list value) :=
  match l with
  | [] => Ok []
  | server :: rest =>
      match server !! "name" with
      | None => Raise (KeyError "name")
      | Some n =>
          match names_of rest with
          | Ok names => Ok (n :: names)
          | Raise e => Raise e
          end
      end
  end.

(** Lines 268-274 on one entry: the entry as the body leaves it, and
    whether the body raised. *)
Definition update_entry (action target_user perm : string)
    (server : gmap string value) : gmap string value * result unit :=
  let '(server, users) :=
    match server !! perm with
    | None => (<[perm := VList []]> server, VList [])
    | Some users => (server, users)
    end in
  if bool_decide (action = "grant") && negb (py_in target_user users) then
    match users with
    | VList l => (<[perm := VList (l ++ [target_user])]> server, Ok tt)
    | VStr _ => (server, Raise AttributeError)       (* str has no append *)
    end
  else if bool_decide (action = "revoke") && py_in target_user users then
    (<[perm := VList (filter (λ p, p ≠ target_user) (py_iter users))]> server, Ok tt)
  else (server, Ok tt).

(** Line 267: the loop runs over the entries selected beforehand by
    [s["name"] == target]; the entries are updated in place, up to the
    first one whose body raises. *)
Fixpoint update_selected (action target_user perm : string)
    (selected : list bool) (l : list (gmap string value))
  : list (gmap string value) * result unit :=
  match selected, l with
  | true :: selected', server :: rest =>
      match update_entry action target_user perm server with
      | (server', Ok _) =>
          let '(rest', r) := update_selected action target_user perm selected' rest in
          (server' :: rest', r)
      | (server', Raise e) => (server' :: rest, Raise e)
      end
  | false :: selected', server :: rest =>
      let '(rest', r) := update_selected action target_user perm selected' rest in
      (server :: rest', r)
  | _, _ => (l, Ok tt)
  end.

(** [open(PERMISSIONS_FILE, "w")] and the write of the whole document. *)
Definition write_permissions (d : document) : M unit :=
  f ← (λ w, (w, Ok (permissions_file w)));
  match f with
  | Uncreatable e => raise e
  | Denied _ _ => raise PermissionError
  | Faulty _ _ => raise OSError
  | Absent | Present _ => set_permissions_file (Present (Json d))
  end.

(** Line 265: the first mention of the message, if any, takes the place of
    the argument. *)
Definition target_user (ctx : context) (user : string) : string :=
  match mentions ctx with
  | [] => user
  | mention :: _ => mention
  end.

(** Lines 250-263: a target without entry gets the default entry. *)
Definition ensure_entry (target : string) : M unit :=
  d ← get_permissions;
  names ← lift (names_of (servers d));
  if bool_decide (VStr target ∈ names) then mret tt
  else set_json_permissions
         (Some {| admins := admins d;
                  servers := servers d ++ [default_entry target] |}).

(** Lines 267-274: the loop over the entries of the target.  The document
    keeps what the loop did when its body raises. *)
Definition apply_change (action target_user target perm : string) : M unit :=
  d ← get_permissions;
  names ← lift (names_of (servers d));
  let '(servers', r) :=
    update_selected action target_user perm
      ((λ n, bool_decide (n = VStr target)) <$> names) (servers d) in
  set_json_permissions (Some {| admins := admins d; servers := servers' |});;
  lift r.

(** Lines 276-277. *)
Definition save_permissions : M unit :=
  d ← get_permissions;
  write_permissions d.

(** The text of the direct message of lines 293-295. *)
Definition receipt (ctx : context) (action user target perm : string) : string :=
  "Requested permissions change has been processed:" +:+ nl
  +:+ "```" +:+ nl +:+ title action +:+ " " +:+ perm
  +:+ " permissions to " +:+ user +:+ " for server" +:+ " "
  +:+ target +:+ " at the request of " +:+ author ctx
  +:+ " (id: " +:+ author_id ctx +:+ ")```".

(** Lines 279-295: the log line, the removal of the request from a public
    channel, and the direct message to the requester.  [delete] with a
    delay only schedules the removal and raises nothing; opening the
    channel and sending the message are awaited and may raise. *)
Definition acknowledge (ctx : context) (action user target perm : string) : M unit :=
  log_info (title action +:+ " " +:+ perm +:+ " permissions to " +:+ user
            +:+ " for server " +:+ target +:+ " at the request of admin "
            +:+ author ctx +:+ " (id: " +:+ author_id ctx +:+ ")"
            +:+ " executed successfully.");;
  (match channel_kind ctx with
   | Private_channel | Group_channel => mret tt
   | Text_channel => emit Deleted_message
   end);;
  (if dm_channel ctx then mret tt else create_dm ctx);;
  send_dm ctx (receipt ctx action user target perm).

Definition permissions (ctx : context) (action user target perm : string) : M unit :=
  d ← get_permissions;
  if bool_decide (author_id ctx ∈ admins d) then
    ensure_entry target;;
    apply_change action (target_user ctx user) target perm;;
    save_permissions;;
    acknowledge ctx action user target perm
  else log_unauthorized ctx ["PERMISSIONS_FILE"].

(** ** Running the model on small inputs *)

(** A container on which every operation returns. *)
Definition mc (name status : string) : container :=
  {| container_name := name; container_status := status;
     container_restart := Ok tt; container_kill := Ok tt; container_start := Ok tt;
     exec_run := λ command, Ok ("out of " +:+ command) |}.


(** A backend that finds its containers by name. *)
Definition docker_of (cs : list container) : docker :=
  {| containers_list := cs;
     containers_get := λ v,
       match v with
       | VStr s =>
           match List.find (λ c, bool_decide (container_name c = s)) cs with
           | Some c => Ok c
           | None => Raise NotFound
           end
       | VList _ => Raise ValueError
       end |}.

Definition user_ctx (command uid : string) : context :=
  {| command_name := command; author := "user#" +:+ uid; author_id := uid;
     channel := "general"; channel_kind := Text_channel; mentions := [];
     dm_channel := false; dm_opens := true; dm_accepts := λ _, true |}.

(** The same requester, who takes no direct message. *)
Definition closed_ctx (command uid : string) : context :=
  {| command_name := command; author := "user#" +:+ uid; author_id := uid;
     channel := "general"; channel_kind := Text_channel; mentions := [];
     dm_channel := false; dm_opens := true; dm_accepts := λ _, false |}.

Definition world_of (d : option json_value) (cs : list container) : world :=
  {| json_permissions := d; permissions_file := Absent; logfile := [];
     docker_client := docker_of cs; docker_calls := []; outbox := [];
     accepts := λ _, true |}.

Definition doc1 : document :=
  {| admins := ["1"];
     servers := [ <["restart" := VList ["7"]]> (<["status" := VList ["7"]]> (default_entry "alpha"));
                  default_entry "beta" ] |}.

Definition w1 : world := world_of (Some doc1) [mc "alpha" "running"; mc "gamma" "exited"].

Definition doc2 : document :=
  {| admins := [];
     servers := [ <["status" := VList ["7"]]> {["name" := VStr "alpha"]} ] |}.

Definition w2 : world := world_of (Some doc2) [mc "alpha" "running"].

(** ** Notions used by the statements *)

(** The answer of [perm_check] as a function of the two globals it reads. *)
Definition allowed_of (ctx : context) (jp : option json_value) (dc : docker)
  : result (list value) :=
  match jp with
  | None => Raise TypeError
  | Some (Other_value e) => Raise e
  | Some (Document d) =>
      if bool_decide (author_id ctx ∈ admins d) then
        Ok (map (λ c, VStr (container_name c)) (containers_list dc))
      else authorized_names (author_id ctx) (command_name ctx) (servers d)
  end.

(** The FORBIDDEN records of a log. *)
Definition forbidden (l : list log_line) : list log_line :=
  filter (λ r, category r = "FORBIDDEN") l.

(** A list command on the empty list: no backend call, no FORBIDDEN record,
    and the report, without a field, as the only message. *)
Definition runs_as_given (command : context → list string → M unit)
    (report : string) (ctx : context) (w : world) : Prop :=
  let reply := Embed_message {| embed_title := report; fields := [] |} in
  docker_calls (command ctx [] w).1 = docker_calls w
  ∧ forbidden (logfile (command ctx [] w).1) = forbidden (logfile w)
  ∧ outbox (command ctx [] w).1 =
      outbox w ++ (if accepts w reply then [Sent reply] else []).

(** The loop bodies that handle one requested target: those of [restart],
    [kill] and [start], and those of the two reports of [status] when the
    list was given by the requester. *)
Definition target_steps (ctx : context) : list (embed → string → M embed) :=
  [ act_on ctx do_restart; act_on ctx do_kill; act_on ctx do_start;
    (λ e server, status_summary ctx false e (VStr server));
    (λ e server, status_detail ctx false e (VStr server)) ].

(** The backend answers a request for the name: with a container, or with
    NotFound. *)
Definition answers (dc : docker) (server : string) : Prop :=
  containers_get dc (VStr server) = Raise NotFound
  ∨ ∃ c, containers_get dc (VStr server) = Ok c.

(** A lookup or an operation of the backend comes back: it returns, or it
    raises NotFound, which the list commands catch. *)
Definition settles {A} (r : result A) : Prop :=
  r = Raise NotFound ∨ ∃ a, r = Ok a.

(** The backend serves a request for the name: it answers, and what the
    commands do with a container it hands out comes back. *)
Definition serves (dc : docker) (server : string) : Prop :=
  containers_get dc (VStr server) = Raise NotFound
  ∨ ∃ c, containers_get dc (VStr server) = Ok c
      ∧ settles (container_restart c) ∧ settles (container_kill c)
      ∧ settles (container_start c) ∧ ∀ command, settles (exec_run c command).

(** The record that [log_unauthorized(ctx, server)] writes. *)
Definition denial (ctx : context) (server : string) : log_line :=
  {| category := "FORBIDDEN"; msg := unauthorized_msg ctx [server] |}.

(** The second world differs from the first at most in backend calls made. *)
Definition quiet (w w' : world) : Prop :=
  logfile w' = logfile w
  ∧ json_permissions w' = json_permissions w
  ∧ docker_client w' = docker_client w
  ∧ outbox w' = outbox w.

(** [int(s)] restricted to plain decimal texts, a sample of the conversion
    that the framework applies to a parameter annotated [int]: digits
    only, anything else is refused. *)
Fixpoint digits_value (acc : Z) (s : string) : option Z :=
  match s with
  | EmptyString => Some acc
  | String c r =>
      if (48 <=? nat_of_ascii c)%nat && (nat_of_ascii c <=? 57)%nat
      then digits_value (10 * acc + Z.of_nat (nat_of_ascii c - 48)) r
      else None
  end.

Definition int_of_decimal (s : string) : option Z :=
  match s with
  | EmptyString => None
  | _ => digits_value 0 s
  end.

(** An entry of the target: [server["name"] == target]. *)
Definition named (target : string) (server : gmap string value) : Prop :=
  server !! "name" = Some (VStr target).

Global Instance named_dec target server : Decision (named target server).
Proof. unfold named. apply _. Defined.

(** The document with an entry for the target: unchanged if it has one,
    with the default entry at its end otherwise. *)
Definition with_entry (target : string) (d : document) : document :=
  if bool_decide (Exists (named target) (servers d)) then d
  else {| admins := admins d; servers := servers d ++ [default_entry target] |}.

(** The document with the action key on the entries of the target: an
    entry that lacks the key gets it with the empty list. *)
Definition with_key (target perm : string) (d : document) : document :=
  {| admins := admins d;
     servers :=
       (λ server,
          if bool_decide (named target server ∧ server !! perm = None)
          then <[perm := VList []]> server else server) <$> servers d |}.

(** The entries of the target hold a set of ids under the action key, if
    they have the key: a list, without repetition. *)
Definition holds_sets (target perm : string) (d : document) : Prop :=
  ∀ server v, server ∈ servers d → named target server →
    server !! perm = Some v → ∃ l, v = VList l ∧ NoDup l.

(** The permissions file can be opened for writing. *)
Definition writable (f : file) : Prop :=
  match f with
  | Absent | Present _ => True
  | Uncreatable _ | Denied _ _ | Faulty _ _ => False
  end.

(** A computation that leaves LOGFILE as it found it. *)
Definition log_stable {A} (m : M A) : Prop :=
  ∀ w, logfile (m w).1 = logfile w.

(** [x] occurs in the text [s]. *)
Definition occurs_in (x s : string) : Prop :=
  ∃ before after, s = before +:+ x +:+ after.

(** ** The rest of bot.py *)

(** [s.split("=")] *)
Fixpoint split_eq (s : string) : list string :=
  match s with
  | EmptyString => [EmptyString]
  | String c r =>
      if bool_decide (c = "="%char) then EmptyString :: split_eq r
      else match split_eq r with
           | part :: parts => String c part :: parts
           | [] => [String c EmptyString]
           end
  end.

(** [s[n:]] *)
Fixpoint slice_from (n : nat) (s : string) : string :=
  match n, s with
  | S n', String _ r => slice_from n' r
  | _, _ => s
  end.

(** Line 10, the pairs handed to [dict]: the arguments that start with
    two dashes, split at the equals signs and unpacked into [arg, val];
    a split that has not exactly two parts fails the unpacking. *)
Fixpoint arg_pairs (args : list string) : result (list (string * string)) :=
  match args with
  | [] => Ok []
  | arg :: rest =>
      if String.prefix "--" arg then
        match split_eq arg with
        | [a; val] =>
            match arg_pairs rest with
            | Ok pairs => Ok ((slice_from 2 a, val) :: pairs)
            | Raise e => Raise e
            end
        | _ => Raise ValueError
        end
      else arg_pairs rest
  end.

(** Line 10: [arg_dict], computed from [sys.argv]; a later pair replaces
    an earlier one with the same key. *)
Definition arg_dict (argv : list string) : result (gmap string string) :=
  match arg_pairs (drop 1 argv) with
  | Ok pairs => Ok (foldl (λ m p, <[p.1 := p.2]> m) ∅ pairs)
  | Raise e => Raise e
  end.

(** [on_ready] (lines 79-83); a guild is given by its name and its id. *)
Definition on_ready (guilds : list (string * string)) : M unit :=
  log_info "Discord bot ready and waiting!";;
  for_each (λ _ server,
              log_info ("Connected to '" +:+ server.1 +:+ "' (id: " +:+ server.2 +:+ ")"))
           guilds tt.

Section Dump_perms.

(** [json.dumps(d, indent=4, sort_keys=True)] *)
Variable json_dumps : document → string.

(** [dump_perms] (lines 301-307) *)
Definition dump_perms (ctx : context) : M unit :=
  d ← get_permissions;
  if bool_decide (author_id ctx ∈ admins d) then
    log_info ("Dumped permissions to chat per request from admin " +:+ author ctx
              +:+ " (id: " +:+ author_id ctx +:+ ")");;
    send (Text_message ("```json" +:+ nl +:+ json_dumps d +:+ "```"))
  else log_unauthorized ctx ["DEBUG_FUNCTION"].

End Dump_perms.

(** ** Further notions *)

(** The second world differs from the first at most in [json_permissions]. *)
Definition same_outside (w w' : world) : Prop :=
  permissions_file w' = permissions_file w
  ∧ logfile w' = logfile w
  ∧ docker_client w' = docker_client w
  ∧ docker_calls w' = docker_calls w
  ∧ outbox w' = outbox w
  ∧ accepts w' = accepts w.

(** The entries the loop of [permissions] runs over. *)
Definition selected (target : string) (l : list (gmap string value)) : list bool :=
  (λ s, bool_decide (named target s)) <$> l.

(** What the loop of [permissions] makes of the document, and whether it
    raised: the entry of the target is there before the loop starts. *)
Definition changed (ctx : context) (action user target perm : string) (d : document)
  : list (gmap string value) * result unit :=
  update_selected action (target_user ctx user) perm
    (selected target (servers (with_entry target d)))
    (servers (with_entry target d)).

(** The entries of the target hold a list under the action key, if they
    have the key. *)
Definition holds_lists (target perm : string) (d : document) : Prop :=
  ∀ server v, server ∈ servers d → named target server →
    server !! perm = Some v → ∃ l, v = VList l.

(** The ids an entry holds under the action key. *)
Definition ids (perm : string) (server : gmap string value) : list string :=
  match server !! perm with
  | Some (VList l) => l
  | _ => []
  end.

(** The container a requested target leads to: none when the requester
    may not reach the target, or the backend does not hand one out. *)
Definition reached (allowed : list value) (dc : docker) (server : string)
  : option container :=
  if bool_decide (VStr server ∈ allowed) then
    match containers_get dc (VStr server) with
    | Ok c => Some c
    | Raise _ => None
    end
  else None.

(** The field of the report for a requested target. *)
Definition outcome_field (text : container → string)
    (allowed : list value) (dc : docker) (server : string) : field :=
  {| field_name := server;
     field_value := from_option text Not_Found_Invalid_Name (reached allowed dc server);
     inline := true |}.

(** The backend calls for a list of requested targets. *)
Definition calls_for (calls : container → list docker_call)
    (allowed : list value) (dc : docker) (servers : list string) : list docker_call :=
  servers ≫= λ server, from_option calls [] (reached allowed dc server).

(** The operation comes back on every container a requested target
    leads to. *)
Definition settles_on (op : container → result unit)
    (allowed : list value) (dc : docker) (servers : list string) : Prop :=
  ∀ server c, server ∈ servers → reached allowed dc server = Some c → settles (op c).

(** What a list command reports for an operation on a container: the
    text of the command when the operation returned, "not found" when it
    raised NotFound. *)
Definition reported {A} (outcome : result A) (text : string) : string :=
  match outcome with
  | Ok _ => text
  | Raise _ => Not_Found_Invalid_Name
  end.

(** The second world differs from the first at most in the log, the
    backend calls made and the messages sent. *)
Definition same_setting (w w' : world) : Prop :=
  json_permissions w' = json_permissions w
  ∧ permissions_file w' = permissions_file w
  ∧ docker_client w' = docker_client w
  ∧ accepts w' = accepts w.

(** One turn of the loop of a list command, for a requested target: the
    field added, the backend calls made, the denial logged. *)
Definition step_runs (ctx : context) (step : embed → string → M embed)
    (op : container → result unit)
    (calls : container → list docker_call) (text : container → string) : Prop :=
  ∀ e server w allowed,
    (perm_check ctx w).2 = Ok allowed →
    (VStr server ∈ allowed → answers (docker_client w) server) →
    settles_on op allowed (docker_client w) [server] →
    (step e server w).2 =
      Ok {| embed_title := embed_title e;
            fields := fields e ++ [outcome_field text allowed (docker_client w) server] |}
    ∧ docker_calls (step e server w).1 =
        docker_calls w ++ calls_for calls allowed (docker_client w) [server]
    ∧ logfile (step e server w).1 =
        logfile w ++ (denial ctx <$> filter (λ s, VStr s ∉ allowed) [server])
    ∧ outbox (step e server w).1 = outbox w
    ∧ same_setting w (step e server w).1.

(** A list command on a requested list: the backend calls, the FORBIDDEN
    records, the report and the result. *)
Definition runs_over (command : context → list string → M unit) (report : string)
    (calls : container → list docker_call) (text : container → string)
    (ctx : context) (servers : list string) (w : world) (allowed : list value) : Prop :=
  let reply :=
    Embed_message {| embed_title := report;
                     fields := outcome_field text allowed (docker_client w) <$> servers |} in
  docker_calls (command ctx servers w).1 =
    docker_calls w ++ calls_for calls allowed (docker_client w) servers
  ∧ forbidden (logfile (command ctx servers w).1) =
      forbidden (logfile w) ++ (denial ctx <$> filter (λ s, VStr s ∉ allowed) servers)
  ∧ outbox (command ctx servers w).1 =
      outbox w ++ (if accepts w reply then [Sent reply] else [])
  ∧ (command ctx servers w).2 =
      (if accepts w reply then Ok tt else Raise HTTPException).


(** The world with another backend. *)
Definition with_backend (dc : docker) (w : world) : world :=
  {| json_permissions := json_permissions w; permissions_file := permissions_file w;
     logfile := logfile w; docker_client := dc; docker_calls := docker_calls w;
     outbox := outbox w; accepts := accepts w |}.

(** The report in which every requested target is "not found". *)
Definition refusal (report : string) (servers : list string) : message :=
  Embed_message
    {| embed_title := report;
       fields := (λ server, {| field_name := server;
                               field_value := Not_Found_Invalid_Name;
                               inline := true |}) <$> servers |}.

(** A command that answers a request with the refusal, whatever the
    backend holds. *)
Definition hides_backend (command : context → list string → M unit) (report : string)
    (ctx : context) (servers : list string) (w : world) (dc : docker) : Prop :=
  docker_calls (command ctx servers (with_backend dc w)).1 = docker_calls w
  ∧ outbox (command ctx servers (with_backend dc w)).1 =
      outbox w ++ (if accepts w (refusal report servers)
                   then [Sent (refusal report servers)] else [])
  ∧ (command ctx servers (with_backend dc w)).2 =
      (if accepts w (refusal report servers) then Ok tt else Raise HTTPException).

(** A computation whose backend calls all satisfy [P]. *)
Definition calls_only (P : docker_call → Prop) {A} (m : M A) : Prop :=
  ∀ w, ∃ l, docker_calls (m w).1 = docker_calls w ++ l ∧ Forall P l.

(** The three commands the detailed report runs in a container. *)
Definition report_call (c : docker_call) : Prop :=
  ∃ name, c = Exec name "uptime" ∨ c = Exec name "du -h world/level.dat"
          ∨ c = Exec name "tail -n3 logs/latest.log".

Global Instance writable_dec f : Decision (writable f).
Proof. destruct f; simpl; apply _. Defined.

(** The requester can be told: a channel for direct messages is there or
    can be opened, and it takes the text. *)
Definition takes_dm (ctx : context) (text : string) : bool :=
  (dm_channel ctx || dm_opens ctx) && dm_accepts ctx text.

(** How a run of [permissions] ends once the document is written and the
    change logged: with the receipt sent, or with the HTTPException of a
    requester who cannot be told. *)
Definition told (ctx : context) (action user target perm : string) : result unit :=
  if takes_dm ctx (receipt ctx action user target perm) then Ok tt
  else Raise HTTPException.

(** What the transport does for the direct message. *)
Definition dm_outputs (ctx : context) (text : string) : list output :=
  (if dm_channel ctx then [] else if dm_opens ctx then [Created_dm] else [])
  ++ (if takes_dm ctx text then [Sent_dm text] else []).









(** The number of equals signs of a text. *)
Fixpoint count_eq (s : string) : nat :=
  match s with
  | EmptyString => 0
  | String c r => (if bool_decide (c = "="%char) then 1 else 0) + count_eq r
  end.

(** An argument of the command line that line 10 can take: one that does
    not start with two dashes, or one with exactly one equals sign. *)
Definition well_formed_arg (arg : string) : Prop :=
  String.prefix "--" arg = true → count_eq arg = 1%nat.

(** * Properties *)

(** ** Stepping through the monad *)

Ltac run :=
  unfold mbind, M_bind, mret, M_ret, bind, ret, lift, raise,
    get_permissions, get_docker; simpl.

Lemma bind_run {A B} (m : M A) (k : A → M B) w :
  (m ≫= k) w =
    match m w with
    | (w', Ok a) => k a w'
    | (w', Raise e) => (w', Raise e)
    end.
Proof. done. Qed.

Lemma try_except_run {A} (body handler : M A) exc w :
  try_except body exc handler w =
    match body w with
    | (w', Raise e) => if bool_decide (e = exc) then handler w' else (w', Raise e)
    | r => r
    end.
Proof. done. Qed.

Lemma log_run text c w :
  ∃ w', log text c w = (w', Ok tt)
    ∧ logfile w' = logfile w ++ [{| category := c; msg := text |}]
    ∧ json_permissions w' = json_permissions w
    ∧ docker_client w' = docker_client w
    ∧ docker_calls w' = docker_calls w
    ∧ outbox w' = outbox w
    ∧ accepts w' = accepts w
    ∧ permissions_file w' = permissions_file w.
Proof. eexists. by repeat split. Qed.

Lemma perm_check_run ctx w :
  perm_check ctx w = (w, allowed_of ctx (json_permissions w) (docker_client w)).
Proof.
  unfold perm_check, allowed_of. run.
  destruct (json_permissions w) as [ [d|e]|]; [|done|done].
  by destruct (bool_decide (author_id ctx ∈ admins d)).
Qed.

Lemma is_authorized_run ctx target w :
  is_authorized ctx target w =
    (w, match allowed_of ctx (json_permissions w) (docker_client w) with
        | Ok allowed => Ok (bool_decide (target ∈ allowed))
        | Raise e => Raise e
        end).
Proof.
  unfold is_authorized. run. rewrite perm_check_run.
  by destruct (allowed_of _ _ _).
Qed.

(** ** The FORBIDDEN records of a log *)

Lemma forbidden_app l1 l2 : forbidden (l1 ++ l2) = forbidden l1 ++ forbidden l2.
Proof. apply filter_app. Qed.

Lemma forbidden_info text : forbidden [{| category := "INFO"; msg := text |}] = [].
Proof. reflexivity. Qed.

Lemma forbidden_denial text :
  forbidden [{| category := "FORBIDDEN"; msg := text |}] =
    [{| category := "FORBIDDEN"; msg := text |}].
Proof. reflexivity. Qed.

(** ** C1: administrators *)

(** C1 (as stated, refuted): an administrator is not authorized for every
    target.  The administrator "1" asks for "beta", which has an entry in
    [servers] but no container in the backend: the test of the commands
    answers false. *)
Lemma C1_admin_denied_outside_backend :
  ¬ (∀ ctx w (d : document) target,
       json_permissions w = Some d → author_id ctx ∈ admins d →
       (is_authorized ctx target w).2 = Ok true).
Proof.
  intros H.
  specialize (H (user_ctx "restart" "1") w1 doc1 (VStr "beta") eq_refl).
  assert (Hadm : author_id (user_ctx "restart" "1") ∈ admins doc1)
    by (simpl; constructor).
  specialize (H Hadm). vm_compute in H. discriminate H.
Qed.

(** C1 (amended): for an identity listed in [admins], [perm_check] returns
    the names of all containers the backend lists, whatever [servers]
    holds and whatever the command; the authorization test is true for
    each of those names and false for any other target. *)
Theorem C1_admin_reaches_backend_targets ctx w (d : document) :
  json_permissions w = Some d →
  author_id ctx ∈ admins d →
  perm_check ctx w =
    (w, Ok (map (λ c, VStr (container_name c)) (containers_list (docker_client w))))
  ∧ (∀ c, c ∈ containers_list (docker_client w) →
          is_authorized ctx (VStr (container_name c)) w = (w, Ok true))
  ∧ (∀ target,
       (∀ c, c ∈ containers_list (docker_client w) → target ≠ VStr (container_name c)) →
       is_authorized ctx target w = (w, Ok false)).
Proof.
  intros Hd Hadm.
  assert (Hall : allowed_of ctx (json_permissions w) (docker_client w) =
                 Ok (map (λ c, VStr (container_name c)) (containers_list (docker_client w)))).
  { unfold allowed_of. rewrite Hd. by rewrite bool_decide_eq_true_2. }
  split; [|split].
  - by rewrite perm_check_run, Hall.
  - intros c Hc. rewrite is_authorized_run, Hall.
    rewrite bool_decide_eq_true_2; [done|].
    apply list_elem_of_fmap. by exists c.
  - intros target Hother. rewrite is_authorized_run, Hall.
    rewrite bool_decide_eq_false_2; [done|].
    intros (c & -> & Hc)%list_elem_of_fmap. by apply (Hother c).
Qed.

Lemma C1_admin_reaches_backend_targets_witness :
  perm_check (user_ctx "kill" "1") w1 = (w1, Ok [VStr "alpha"; VStr "gamma"])
  ∧ is_authorized (user_ctx "kill" "1") (VStr "gamma") w1 = (w1, Ok true).
Proof.
  assert (Hadm : author_id (user_ctx "kill" "1") ∈ admins doc1)
    by (simpl; constructor).
  destruct (C1_admin_reaches_backend_targets (user_ctx "kill" "1") w1 doc1 eq_refl Hadm)
    as (Hall & Hone & _).
  split; [exact Hall|].
  apply (Hone (mc "gamma" "exited")). simpl. do 2 constructor.
Defined.

(** ** C2: identities that are not administrators *)

Lemma authorized_names_missing_key uid command (l : list (gmap string value)) :
  (∃ server, server ∈ l ∧ server !! command = None) →
  ∃ key, authorized_names uid command l = Raise (KeyError key).
Proof.
  induction l as [|server rest IH]; intros (s & Hin & Hnone).
  - by apply elem_of_nil in Hin.
  - simpl. destruct (server !! command) as [users|] eqn:Hk; [|by eexists].
    apply elem_of_cons in Hin as [->|Hin]; [congruence|].
    destruct IH as [key Hkey]; [by exists s|].
    destruct (py_in uid users); [|by eexists].
    destruct (server !! "name"); [|by eexists].
    rewrite Hkey. by eexists.
Qed.

(** Where every entry carries its name and the action key, the answer is
    the list of the names of the entries whose list holds the identity. *)
Lemma authorized_names_complete uid command (l : list (gmap string value)) :
  (∀ server, server ∈ l →
     is_Some (server !! "name") ∧ is_Some (server !! command)) →
  ∃ names, authorized_names uid command l = Ok names
    ∧ ∀ n, n ∈ names ↔
        ∃ server users, server ∈ l ∧ server !! "name" = Some n
          ∧ server !! command = Some users ∧ py_in uid users = true.
Proof.
  induction l as [|server rest IH]; intros Hwf.
  - exists []. split; [done|]. intros n. split.
    + by intros ?%elem_of_nil.
    + by intros (s & ? & ?%elem_of_nil & _).
  - destruct IH as (names & Hnames & Hspec).
    { intros s Hs. apply Hwf. by right. }
    destruct (Hwf server) as [[n0 Hn0] [users Hu]]; [by left|].
    simpl. rewrite Hu. destruct (py_in uid users) eqn:Hin.
    + rewrite Hn0, Hnames. exists (n0 :: names). split; [done|].
      intros n. rewrite elem_of_cons, Hspec. split.
      * intros [->|(s & us & Hs & ? & ? & ?)].
        -- exists server, users. repeat split; try done. by left.
        -- exists s, us. repeat split; try done. by right.
      * intros (s & us & Hs & Hsn & Hsu & Hsin).
        apply elem_of_cons in Hs as [->|Hs].
        -- left. congruence.
        -- right. by exists s, us.
    + exists names. split; [done|].
      intros n. rewrite Hspec. split.
      * intros (s & us & Hs & ? & ? & ?). exists s, us. repeat split; try done. by right.
      * intros (s & us & Hs & Hsn & Hsu & Hsin).
        apply elem_of_cons in Hs as [->|Hs]; [congruence|]. by exists s, us.
Qed.

(** C2 (the code misses the case): for an identity that is not an
    administrator, an entry of [servers] without the key of the command
    makes [perm_check] raise KeyError; the entry is not skipped as one that
    authorizes nobody. *)
Theorem C2_missing_action_key_raises ctx w (d : document) :
  json_permissions w = Some d →
  author_id ctx ∉ admins d →
  (∃ server, server ∈ servers d ∧ server !! command_name ctx = None) →
  ∃ key, perm_check ctx w = (w, Raise (KeyError key)).
Proof.
  intros Hd Hadm Hmiss. rewrite perm_check_run. unfold allowed_of.
  rewrite Hd, bool_decide_eq_false_2 by done.
  destruct (authorized_names_missing_key (author_id ctx) (command_name ctx) _ Hmiss)
    as [key ->].
  by exists key.
Qed.

Lemma C2_missing_action_key_raises_witness :
  ∃ key, perm_check (user_ctx "restart" "7") w2 = (w2, Raise (KeyError key)).
Proof.
  apply (C2_missing_action_key_raises (user_ctx "restart" "7") w2 doc2 eq_refl).
  - simpl. apply not_elem_of_nil.
  - exists (<["status" := VList ["7"]]> {["name" := VStr "alpha"]}).
    split; [simpl; constructor|]. by vm_compute.
Defined.

(** ** The audit log along a command *)

Lemma log_stable_ret {A} (a : A) : log_stable (mret a).
Proof. by intros w. Qed.

Lemma log_stable_lift {A} (r : result A) : log_stable (lift r).
Proof. by intros w. Qed.

Lemma log_stable_bind {A B} (m : M A) (k : A → M B) :
  log_stable m → (∀ a, log_stable (k a)) → log_stable (m ≫= k).
Proof.
  intros Hm Hk w. unfold mbind, M_bind, bind. specialize (Hm w).
  destruct (m w) as [w' [a|e]]; simpl in *; [|done].
  by rewrite Hk.
Qed.

Lemma log_stable_try {A} (body handler : M A) exc :
  log_stable body → log_stable handler → log_stable (try_except body exc handler).
Proof.
  intros Hb Hh w. unfold try_except. specialize (Hb w).
  destruct (body w) as [w' [a|e]]; simpl in *; [done|].
  destruct (bool_decide (e = exc)); simpl; [|done].
  by rewrite Hh.
Qed.

Lemma log_stable_for_each {A S} (body : S → A → M S) l :
  (∀ s x, log_stable (body s x)) → ∀ s, log_stable (for_each body l s).
Proof.
  intros Hbody. induction l as [|x r IH]; intros s; simpl.
  - apply log_stable_ret.
  - apply log_stable_bind; [apply Hbody | apply IH].
Qed.

Lemma log_stable_is_authorized ctx target : log_stable (is_authorized ctx target).
Proof. intros w. by rewrite is_authorized_run. Qed.

Lemma log_stable_get_docker : log_stable get_docker.
Proof. by intros w. Qed.

Lemma log_stable_call_docker {A} c (r : result A) : log_stable (call_docker c r).
Proof. by intros w. Qed.

Lemma log_stable_exec c command : log_stable (exec c command).
Proof. by intros w. Qed.

Lemma log_stable_raise {A} e : log_stable (@raise A e).
Proof. by intros w. Qed.

Lemma log_stable_add_probes c probes : ∀ e, log_stable (add_probes c probes e).
Proof.
  induction probes as [|[ [name command] is_inline] rest IH]; intros e w; [done|].
  simpl. destruct (exec_run c command); [by rewrite IH|done].
Qed.

Lemma log_stable_send m : log_stable (send m).
Proof. intros w. unfold send. by destruct (accepts w m). Qed.

Create HintDb log_stable.
#[local] Hint Resolve log_stable_ret log_stable_lift log_stable_is_authorized
  log_stable_get_docker log_stable_call_docker log_stable_exec log_stable_raise
  log_stable_add_probes log_stable_send : log_stable.

Ltac log_stable :=
  repeat first
    [ solve [eauto with log_stable]
    | apply log_stable_bind; [|intros ?]
    | apply log_stable_try
    | match goal with |- log_stable (if ?b then _ else _) => destruct b end
    | match goal with |- log_stable (let (_, _) := ?x in _) => destruct x end
    | match goal with |- log_stable (match ?x with _ => _ end) => destruct x end ].

(** With [autofilled] set, neither loop body of [status] writes to the log. *)
Lemma log_stable_status_summary ctx e server :
  log_stable (status_summary ctx true e server).
Proof. unfold status_summary. simpl negb. cbv iota. log_stable. Qed.

Lemma log_stable_status_detail ctx e server :
  log_stable (status_detail ctx true e server).
Proof. unfold status_detail. simpl negb. cbv iota. log_stable. Qed.

(** ** C3: the empty target list *)

Lemma status_targets_run ctx w :
  status_targets ctx [] w =
    (w, match (perm_check ctx w).2 with
        | Ok allowed => Ok (allowed, true)
        | Raise e => Raise e
        end).
Proof.
  unfold status_targets. run. rewrite perm_check_run. simpl.
  by destruct (allowed_of _ _ _).
Qed.

(** [status] with no argument writes its INFO line and nothing else. *)
Lemma status_autofill_log ctx w :
  ∃ line, category line = "INFO"
    ∧ logfile (status ctx [] w).1 = logfile w ++ [line].
Proof.
  unfold status, log_info. rewrite bind_run.
  destruct (log_run ("Status command received from channel " +:+ channel ctx +:+ " by "
            +:+ author ctx +:+ " (id: " +:+ author_id ctx +:+ ")") "INFO" w)
    as (w' & -> & Hlog & _).
  eexists. split; [|rewrite <- Hlog]; [done|].
  rewrite bind_run, status_targets_run, perm_check_run. simpl.
  destruct (allowed_of _ _ _) as [allowed|e]; [|done].
  destruct (bool_decide (1 < length allowed)).
  - apply log_stable_bind; [|intros; apply log_stable_send].
    apply log_stable_for_each. intros. apply log_stable_status_summary.
  - destruct (allowed !! 0%nat); [|done].
    apply log_stable_bind; [|intros; apply log_stable_send].
    apply log_stable_for_each. intros. apply log_stable_status_detail.
Qed.

(** C3 (as stated, refuted): [restart] does not expand an empty target
    list.  The requester "7" may restart "alpha", and asking for "alpha"
    restarts it, but the empty list reaches no target: no backend call is
    made and the reply has no field. *)
Lemma C3_restart_does_not_autofill :
  (perm_check (user_ctx "restart" "7") w1).2 = Ok [VStr "alpha"]
  ∧ docker_calls (restart (user_ctx "restart" "7") ["alpha"] w1).1 = [Restart "alpha"]
  ∧ docker_calls (restart (user_ctx "restart" "7") [] w1).1 = []
  ∧ outbox (restart (user_ctx "restart" "7") [] w1).1 =
      [Sent (Embed_message {| embed_title := "Restart Results"; fields := [] |})].
Proof. repeat split; by vm_compute. Qed.

(** C3 (amended): only [status] expands an empty target list.  With no
    argument its working list is the answer of [perm_check] with
    [autofilled] set, and the run adds no FORBIDDEN record to the log; a
    list that is not empty is taken as given, with [autofilled] unset.
    [restart], [kill] and [start] run over the list they are given: on the
    empty list they make no backend call and reply with an empty report. *)
Theorem C3_only_status_autofills ctx w :
  status_targets ctx [] w =
    (w, match (perm_check ctx w).2 with
        | Ok allowed => Ok (allowed, true)
        | Raise e => Raise e
        end)
  ∧ (∀ s rest, status_targets ctx (s :: rest) w = (w, Ok (VStr <$> s :: rest, false)))
  ∧ forbidden (logfile (status ctx [] w).1) = forbidden (logfile w)
  ∧ runs_as_given restart "Restart Results" ctx w
  ∧ runs_as_given kill "SIGKILL Results" ctx w
  ∧ runs_as_given start "Start Results" ctx w.
Proof.
  split; [apply status_targets_run|]. split; [done|]. split.
  - destruct (status_autofill_log ctx w) as (line & Hcat & ->).
    rewrite forbidden_app. destruct line as [c text]. simpl in Hcat. subst c.
    change (forbidden [{| category := "INFO"; msg := text |}]) with (@nil log_line).
    apply app_nil_r.
  - unfold runs_as_given, restart, kill, start, log_info, send. run.
    destruct (accepts w _), (accepts w _), (accepts w _); simpl;
      rewrite ?forbidden_app, ?app_nil_r; repeat split; done.
Qed.

(** ** C4: no permissions file at process start *)

(** C4 (the code misses the case): started without a permissions file, the
    process goes on, the file exists afterwards with zero bytes, but
    [json_permissions] is still [None]: no empty document is put in its
    place, and [perm_check], [status] and [permissions] raise TypeError.
    A second start, on the file left behind, fails in [json.load]. *)
Theorem C4_absent_file_leaves_no_document dc acc :
  let start_up := load_permissions (initial_world Absent dc acc) in
  start_up.2 = Ok tt
  ∧ json_permissions start_up.1 = None
  ∧ permissions_file start_up.1 = Present Zero_bytes
  ∧ Present Zero_bytes ≠ Present (Json {| admins := []; servers := [] |})
  ∧ (∀ ctx, (perm_check ctx start_up.1).2 = Raise TypeError)
  ∧ (∀ ctx servers, (status ctx servers start_up.1).2 = Raise TypeError)
  ∧ (∀ ctx action user target perm,
       (permissions ctx action user target perm start_up.1).2 = Raise TypeError)
  ∧ (load_permissions (initial_world (permissions_file start_up.1) dc acc)).2 =
      Raise JSONDecodeError.
Proof.
  simpl. repeat split; try done.
  intros ctx [|s [|s' rest]]; done.
Qed.

(** ** C10: [status] for a requester without any target *)

(** C10: when [perm_check] answers with the empty list, [status] without
    argument takes the branch of the detailed report and raises IndexError
    at [servers[0]]; nothing is sent and the backend is not called. *)
Theorem C10_status_without_targets_raises ctx w :
  (perm_check ctx w).2 = Ok [] →
  (status ctx [] w).2 = Raise IndexError
  ∧ outbox (status ctx [] w).1 = outbox w
  ∧ docker_calls (status ctx [] w).1 = docker_calls w.
Proof.
  intros Hnone. unfold status, log_info. rewrite bind_run.
  destruct (log_run ("Status command received from channel " +:+ channel ctx +:+ " by "
            +:+ author ctx +:+ " (id: " +:+ author_id ctx +:+ ")") "INFO" w)
    as (w' & -> & _ & Hjp & Hdc & Hcalls & Hout & _).
  rewrite bind_run, status_targets_run, perm_check_run. simpl.
  rewrite perm_check_run in Hnone. simpl in Hnone.
  rewrite Hjp, Hdc, Hnone. simpl. by rewrite Hout, Hcalls.
Qed.

Lemma C10_status_without_targets_raises_witness :
  (perm_check (user_ctx "status" "9") w1).2 = Ok []
  ∧ (status (user_ctx "status" "9") [] w1).2 = Raise IndexError.
Proof.
  split; [by vm_compute|].
  apply (C10_status_without_targets_raises (user_ctx "status" "9") w1).
  by vm_compute.
Defined.

(** ** C5, C6: denials *)

Lemma quiet_refl w : quiet w w.
Proof. done. Qed.

Lemma do_restart_run c w :
  do_restart c w =
    ((call_docker (Restart (container_name c)) (container_restart c) w).1,
     match container_restart c with Ok _ => Ok "Restart Sent" | Raise ex => Raise ex end).
Proof. unfold do_restart. rewrite bind_run. simpl. by destruct (container_restart c). Qed.

Lemma do_kill_run c w :
  do_kill c w =
    ((call_docker (Kill (container_name c)) (container_kill c) w).1,
     match container_kill c with
     | Ok _ => Ok ("SIGKILL Sent - status is " +:+ container_status c)
     | Raise ex => Raise ex
     end).
Proof. unfold do_kill. rewrite bind_run. simpl. by destruct (container_kill c). Qed.

Lemma do_start_run c w :
  do_start c w =
    ((call_docker (Start (container_name c)) (container_start c) w).1,
     match container_start c with Ok _ => Ok (container_status c) | Raise ex => Raise ex end).
Proof. unfold do_start. rewrite bind_run. simpl. by destruct (container_start c). Qed.

(** A step of [restart], [kill] or [start] on a target the requester may
    not reach, and on one the requester may reach. *)
Lemma act_on_denied ctx act e server w allowed :
  (perm_check ctx w).2 = Ok allowed →
  VStr server ∉ allowed →
  act_on ctx act e server w =
    ((log_unauthorized ctx [server] w).1,
     Ok (add_field e server Not_Found_Invalid_Name true)).
Proof.
  intros Hallowed Hout. rewrite perm_check_run in Hallowed. simpl in Hallowed.
  unfold act_on. rewrite bind_run, is_authorized_run, Hallowed.
  by rewrite bool_decide_eq_false_2 by exact Hout.
Qed.

Lemma act_on_run ctx (act : container → M string) e server w allowed :
  (perm_check ctx w).2 = Ok allowed →
  VStr server ∈ allowed →
  act_on ctx act e server w =
    match containers_get (docker_client w) (VStr server) with
    | Ok c =>
        match act c w with
        | (w', Ok outcome) => (w', Ok (add_field e server outcome true))
        | (w', Raise ex) =>
            if bool_decide (ex = NotFound)
            then (w', Ok (add_field e server Not_Found_Invalid_Name true))
            else (w', Raise ex)
        end
    | Raise ex =>
        if bool_decide (ex = NotFound)
        then (w, Ok (add_field e server Not_Found_Invalid_Name true))
        else (w, Raise ex)
    end.
Proof.
  intros Hallowed Hin. rewrite perm_check_run in Hallowed. simpl in Hallowed.
  unfold act_on. rewrite bind_run, is_authorized_run, Hallowed.
  rewrite bool_decide_eq_true_2 by exact Hin.
  rewrite try_except_run, !bind_run. unfold get_docker, lift.
  destruct (containers_get _ _) as [c|ex]; [|done].
  rewrite !bind_run. by destruct (act c w) as [w' [outcome|ex] ].
Qed.

Lemma status_summary_run ctx autofilled e server w allowed :
  (perm_check ctx w).2 = Ok allowed →
  VStr server ∈ allowed →
  status_summary ctx autofilled e (VStr server) w =
    match containers_get (docker_client w) (VStr server) with
    | Ok c => (w, Ok (add_field e server (title (container_status c)) true))
    | Raise ex =>
        if bool_decide (ex = NotFound)
        then (w, Ok (add_field e server Not_Found_Invalid_Name true))
        else (w, Raise ex)
    end.
Proof.
  intros Hallowed Hin. rewrite perm_check_run in Hallowed. simpl in Hallowed.
  unfold status_summary. rewrite bind_run, is_authorized_run, Hallowed.
  rewrite bool_decide_eq_true_2 by exact Hin.
  rewrite try_except_run, !bind_run. unfold get_docker, lift.
  by destruct (containers_get _ _) as [c|ex].
Qed.

Lemma status_detail_run ctx autofilled e server w allowed :
  (perm_check ctx w).2 = Ok allowed →
  VStr server ∈ allowed →
  status_detail ctx autofilled e (VStr server) w =
    match containers_get (docker_client w) (VStr server) with
    | Ok c =>
        let e1 := add_field e "Docker Status" (title (container_status c)) true in
        if bool_decide (container_status c = "running") then
          match add_probes c detail_probes e1 w with
          | (w', Ok (e2, None)) => (w', Ok e2)
          | (w', Ok (e2, Some ex)) =>
              if bool_decide (ex = NotFound)
              then (w', Ok (add_field e2 server Not_Found_Invalid_Name true))
              else (w', Raise ex)
          | (w', Raise ex) => (w', Raise ex)
          end
        else (w, Ok e1)
    | Raise ex =>
        if bool_decide (ex = NotFound)
        then (w, Ok (add_field e server Not_Found_Invalid_Name true))
        else (w, Raise ex)
    end.
Proof.
  intros Hallowed Hin. rewrite perm_check_run in Hallowed. simpl in Hallowed.
  unfold status_detail. rewrite bind_run, is_authorized_run, Hallowed.
  rewrite bool_decide_eq_true_2 by exact Hin.
  rewrite !bind_run. unfold get_docker.
  destruct (containers_get _ _) as [c|ex];
    cbv beta iota zeta delta [mbind M_bind bind mret M_ret ret raise py_str].
  - destruct (bool_decide (container_status c = "running")); [|done].
    destruct (add_probes c detail_probes _ w) as [w' [ [e2 [ex|] ]|ex] ]; try done.
    by destruct (bool_decide (ex = NotFound)).
  - by destruct (bool_decide (ex = NotFound)).
Qed.

Lemma status_step_denied ctx e server w allowed :
  (perm_check ctx w).2 = Ok allowed →
  VStr server ∉ allowed →
  status_summary ctx false e (VStr server) w =
    ((log_unauthorized ctx [server] w).1,
     Ok (add_field e server Not_Found_Invalid_Name true))
  ∧ status_detail ctx false e (VStr server) w =
      ((log_unauthorized ctx [server] w).1,
       Ok (add_field e server Not_Found_Invalid_Name true)).
Proof.
  intros Hallowed Hout. rewrite perm_check_run in Hallowed. simpl in Hallowed.
  unfold status_summary, status_detail.
  rewrite !bind_run, is_authorized_run, Hallowed.
  by rewrite bool_decide_eq_false_2 by exact Hout.
Qed.

Lemma add_probes_cons c name command is_inline rest e w :
  add_probes c ((name, command, is_inline) :: rest) e w =
    match exec_run c command with
    | Ok output =>
        add_probes c rest (add_field e name output is_inline)
          (call_docker (Exec (container_name c) command) (@Ok unit tt) w).1
    | Raise ex =>
        ((call_docker (Exec (container_name c) command) (@Ok unit tt) w).1,
         Ok (e, Some ex))
    end.
Proof. simpl. by destruct (exec_run c command). Qed.

(** The probes of the detailed report: they touch nothing but the list of
    backend calls, and they hand the embed on, with the exception of the
    probe that raised, if one did. *)
Lemma add_probes_run c probes :
  ∀ e w, ∃ w' e' raised,
    add_probes c probes e w = (w', Ok (e', raised))
    ∧ quiet w w'
    ∧ ((∀ command, settles (exec_run c command)) →
       raised = None ∨ raised = Some NotFound).
Proof.
  induction probes as [|[ [name command] is_inline] rest IH]; intros e w.
  - exists w, e, None. split; [done|]. split; [done|]. by left.
  - rewrite add_probes_cons. destruct (exec_run c command) as [output|ex] eqn:Hexec.
    + destruct (IH (add_field e name output is_inline)
                   (call_docker (Exec (container_name c) command) (@Ok unit tt) w).1)
        as (w' & e' & raised & Hrun & Hquiet & Hsettles).
      exists w', e', raised. split; [exact Hrun|]. split; [exact Hquiet|exact Hsettles].
    + eexists _, e, (Some ex). split; [done|]. split; [done|].
      intros Hsettles. right. destruct (Hsettles command) as [Hnf|[a Ha] ]; congruence.
Qed.

Lemma settles_ok {A} (r : result A) :
  settles r →
  ∀ ex, r = Raise ex → ex = NotFound.
Proof. intros [Hnf|[a Ha] ] ex Hex; congruence. Qed.

(** A step of [restart], [kill] or [start] on a target the requester may
    reach, for an operation [op] reported with [text]. *)
Lemma act_on_reached ctx act (op : container → result unit) call (text : container → string) :
  (∀ c w, act c w =
     ((call_docker (call c) (op c) w).1,
      match op c with Ok _ => Ok (text c) | Raise ex => Raise ex end)) →
  ∀ e server w allowed,
    (perm_check ctx w).2 = Ok allowed →
    VStr server ∈ allowed →
    quiet w (act_on ctx act e server w).1
    ∧ (containers_get (docker_client w) (VStr server) = Raise NotFound →
       act_on ctx act e server w = (w, Ok (add_field e server Not_Found_Invalid_Name true)))
    ∧ (containers_get (docker_client w) (VStr server) = Raise NotFound
       ∨ (∃ c, containers_get (docker_client w) (VStr server) = Ok c ∧ settles (op c)) →
       ∃ e', (act_on ctx act e server w).2 = Ok e').
Proof.
  intros Hact e server w allowed Hallowed Hin.
  rewrite (act_on_run ctx _ e server w allowed Hallowed Hin).
  destruct (containers_get _ _) as [c|ex] eqn:Hget.
  - rewrite Hact. destruct (op c) as [ []|ex] eqn:Hop; simpl.
    + split; [done|]. split; [done|]. by eexists.
    + case_bool_decide as Hex; simpl; (split; [done|]; split; [done|]).
      * by eexists.
      * intros [?|(c' & Hc' & Hsettles)]; [done|]. injection Hc' as <-.
        by destruct (Hex (settles_ok _ Hsettles ex Hop)).
  - case_bool_decide as Hex; simpl; (split; [done|]; split; [by intros [= ->]|]).
    + by eexists.
    + intros [?|(c' & ? & _)]; congruence.
Qed.

(** One requested target in one of the list commands. *)
Lemma target_step_spec ctx step :
  step ∈ target_steps ctx →
  ∀ e server w allowed,
    (perm_check ctx w).2 = Ok allowed →
    (VStr server ∉ allowed →
       step e server w =
         ((log_unauthorized ctx [server] w).1,
          Ok (add_field e server Not_Found_Invalid_Name true)))
    ∧ (VStr server ∈ allowed →
         quiet w (step e server w).1
         ∧ (containers_get (docker_client w) (VStr server) = Raise NotFound →
            step e server w = (w, Ok (add_field e server Not_Found_Invalid_Name true)))
         ∧ (serves (docker_client w) server → ∃ e', (step e server w).2 = Ok e')).
Proof.
  intros Hstep e server w allowed Hallowed.
  assert (Hcases : step = act_on ctx do_restart ∨ step = act_on ctx do_kill
                   ∨ step = act_on ctx do_start
                   ∨ step = (λ e server, status_summary ctx false e (VStr server))
                   ∨ step = (λ e server, status_detail ctx false e (VStr server))).
  { unfold target_steps in Hstep.
    repeat (apply elem_of_cons in Hstep as [Hstep|Hstep]; [tauto|]).
    by apply elem_of_nil in Hstep. }
  split.
  - intros Hout.
    destruct (status_step_denied ctx e server w allowed Hallowed Hout) as [Hsum Hdet].
    destruct Hcases as [-> | [-> | [-> | [-> | ->] ] ] ];
      first [by apply (act_on_denied ctx _ e server w allowed) | done].
  - intros Hin.
    destruct Hcases as [-> | [-> | [-> | [-> | ->] ] ] ].
    + destruct (act_on_reached ctx do_restart container_restart _ _ do_restart_run
                  e server w allowed Hallowed Hin) as (Hquiet & Hnf & Hreturns).
      split; [done|]. split; [done|].
      intros [?|(c & Hc & Hr & Hk & Hs & _)]; apply Hreturns; [by left|right; by exists c].
    + destruct (act_on_reached ctx do_kill container_kill _ _ do_kill_run
                  e server w allowed Hallowed Hin) as (Hquiet & Hnf & Hreturns).
      split; [done|]. split; [done|].
      intros [?|(c & Hc & Hr & Hk & Hs & _)]; apply Hreturns; [by left|right; by exists c].
    + destruct (act_on_reached ctx do_start container_start _ _ do_start_run
                  e server w allowed Hallowed Hin) as (Hquiet & Hnf & Hreturns).
      split; [done|]. split; [done|].
      intros [?|(c & Hc & Hr & Hk & Hs & _)]; apply Hreturns; [by left|right; by exists c].
    + rewrite (status_summary_run ctx _ e server w allowed Hallowed Hin).
      unfold serves. destruct (containers_get _ _) as [c|ex] eqn:Hget.
      * split; [done|]. split; [done|]. by eexists.
      * case_bool_decide as Hex; simpl; (split; [done|]; split; [by intros [= ->]|]).
        -- by eexists.
        -- intros [?|(c' & ? & _)]; congruence.
    + rewrite (status_detail_run ctx _ e server w allowed Hallowed Hin).
      unfold serves. destruct (containers_get _ _) as [c|ex] eqn:Hget.
      * cbv zeta. destruct (bool_decide (container_status c = "running")).
        2: { split; [done|]. split; [done|]. by eexists. }
        destruct (add_probes_run c detail_probes
                    (add_field e "Docker Status" (title (container_status c)) true) w)
          as (w' & e2 & raised & -> & Hquiet & Hsettles).
        destruct raised as [ex|].
        -- case_bool_decide as Hex; simpl; (split; [done|]; split; [done|]).
           ++ by eexists.
           ++ intros [?|(c' & Hc' & _ & _ & _ & Hexec)]; [done|].
              injection Hc' as <-. destruct (Hsettles Hexec); congruence.
        -- split; [done|]. split; [done|]. by eexists.
      * case_bool_decide as Hex; simpl; (split; [done|]; split; [by intros [= ->]|]).
        -- by eexists.
        -- intros [?|(c' & ? & _)]; congruence.
Qed.

Lemma log_unauthorized_run ctx servers w :
  (log_unauthorized ctx servers w).2 = Ok tt
  ∧ logfile (log_unauthorized ctx servers w).1 =
      logfile w ++ [{| category := "FORBIDDEN"; msg := unauthorized_msg ctx servers |}]
  ∧ json_permissions (log_unauthorized ctx servers w).1 = json_permissions w
  ∧ docker_client (log_unauthorized ctx servers w).1 = docker_client w
  ∧ docker_calls (log_unauthorized ctx servers w).1 = docker_calls w
  ∧ outbox (log_unauthorized ctx servers w).1 = outbox w.
Proof. done. Qed.





Lemma append_assoc (a b c : string) : (a +:+ b) +:+ c = a +:+ b +:+ c.
Proof.
  induction a as [|x a IH]; [done|].
  change (String x ((a +:+ b) +:+ c) = String x (a +:+ b +:+ c)).
  by rewrite IH.
Qed.

Lemma occurs_in_here x after : occurs_in x (x +:+ after).
Proof. by exists "", after. Qed.

Lemma occurs_in_later x a s : occurs_in x s → occurs_in x (a +:+ s).
Proof.
  intros (before & after & ->). exists (a +:+ before), after.
  by rewrite append_assoc.
Qed.

(** What a FORBIDDEN record tells. *)
Lemma unauthorized_msg_content ctx servers :
  occurs_in (command_name ctx) (unauthorized_msg ctx servers)
  ∧ occurs_in (author ctx) (unauthorized_msg ctx servers)
  ∧ occurs_in (author_id ctx) (unauthorized_msg ctx servers)
  ∧ occurs_in (channel ctx) (unauthorized_msg ctx servers)
  ∧ occurs_in (String.concat ", " servers) (unauthorized_msg ctx servers).
Proof.
  unfold unauthorized_msg.
  repeat split; repeat first [apply occurs_in_here | apply occurs_in_later].
Qed.

(** The loop of a list command writes one FORBIDDEN record for each
    requested target that it gets to and that the requester may not
    reach.  It gets to every target unless a step raises, and no step
    raises where the backend serves the targets the requester may reach. *)
Lemma for_each_forbidden ctx step allowed :
  step ∈ target_steps ctx →
  ∀ servers e w,
    (perm_check ctx w).2 = Ok allowed →
    (∃ handled,
       handled `prefix_of` servers
       ∧ forbidden (logfile (for_each step servers e w).1) =
           forbidden (logfile w) ++ (denial ctx <$> filter (λ s, VStr s ∉ allowed) handled)
       ∧ ((∃ e', (for_each step servers e w).2 = Ok e') → handled = servers))
    ∧ ((∀ s, s ∈ servers → VStr s ∈ allowed → serves (docker_client w) s) →
       ∃ e', (for_each step servers e w).2 = Ok e').
Proof.
  intros Hstep servers. induction servers as [|server rest IH]; intros e w Hallowed.
  - simpl. split; [|by eexists].
    exists []. split; [done|]. split; [by rewrite app_nil_r|done].
  - simpl. rewrite bind_run.
    destruct (target_step_spec ctx step Hstep e server w allowed Hallowed)
      as [Hdenied Hreached].
    destruct (decide (VStr server ∉ allowed)) as [Hout|Hin].
    + rewrite (Hdenied Hout).
      destruct (log_unauthorized_run ctx [server] w) as (_ & Hlog & Hjp & Hdc & _).
      destruct (IH (add_field e server Not_Found_Invalid_Name true)
                   (log_unauthorized ctx [server] w).1)
        as [(handled & Hprefix & Hrecords & Hall) Hreturns].
      { rewrite perm_check_run in Hallowed |- *. exact Hallowed. }
      split.
      * exists (server :: handled). split; [by apply prefix_cons|].
        split; [|by intros ->%Hall].
        rewrite Hrecords, Hlog, forbidden_app, forbidden_denial, <- app_assoc.
        by rewrite filter_cons_True.
      * intros Hserves. apply Hreturns. intros s Hs. rewrite Hdc. apply Hserves. by right.
    + apply dec_stable in Hin.
      destruct (Hreached Hin) as ((Hlog & Hjp & Hdc & _) & _ & Hreturns).
      destruct (step e server w) as [w1 [e1|ex] ]; simpl in *.
      * destruct (IH e1 w1) as [(handled & Hprefix & Hrecords & Hall) Hreturns'].
        { rewrite perm_check_run in Hallowed |- *. simpl in *. by rewrite Hjp, Hdc. }
        split.
        -- exists (server :: handled). split; [by apply prefix_cons|].
           split; [|by intros ->%Hall].
           rewrite Hrecords, Hlog. by rewrite filter_cons_False by (by intros []).
        -- intros Hserves. apply Hreturns'. intros s Hs. rewrite Hdc. apply Hserves. by right.
      * split.
        -- exists []. split; [apply prefix_nil|]. split; [by rewrite Hlog, app_nil_r|].
           by intros [? ?].
        -- intros Hserves. destruct Hreturns as [e' ?]; [|done].
           apply Hserves; [by left|done].
Qed.

(** C6 (as stated, refuted): the denied targets of one invocation are not
    gathered in one record.  "7" asks to restart "beta" and "gamma" and may
    reach neither: the log receives two FORBIDDEN records, one per target. *)
Lemma C6_one_record_per_denied_target :
  let ctx := user_ctx "restart" "7" in
  forbidden (logfile (restart ctx ["beta"; "gamma"] w1).1) =
    [denial ctx "beta"; denial ctx "gamma"]
  ∧ msg (denial ctx "beta") =
      "Function restart was called by user user#7 (id: 7) in channel general for server(s): [beta], but user is not authorized."
  ∧ msg (denial ctx "gamma") =
      "Function restart was called by user user#7 (id: 7) in channel general for server(s): [gamma], but user is not authorized.".
Proof. repeat split; by vm_compute. Qed.

(** C6 (amended): a FORBIDDEN record holds the name of the command, the
    requester and its id, the channel, and the targets handed to
    [log_unauthorized], joined by commas.  The list commands hand over one
    target at a time: the loop leaves one record for each requested target
    that it gets to and that the requester may not reach, in the order of
    the request.  It gets to all of them when it comes to its end, which
    it does where the backend serves the targets the requester may reach;
    a backend failure that is not caught ends it before. *)
Theorem C6_forbidden_records ctx step servers e w allowed :
  step ∈ target_steps ctx →
  (perm_check ctx w).2 = Ok allowed →
  (∃ handled,
     handled `prefix_of` servers
     ∧ forbidden (logfile (for_each step servers e w).1) =
         forbidden (logfile w) ++ (denial ctx <$> filter (λ s, VStr s ∉ allowed) handled)
     ∧ ((∃ e', (for_each step servers e w).2 = Ok e') → handled = servers))
  ∧ ((∀ s, s ∈ servers → VStr s ∈ allowed → serves (docker_client w) s) →
     ∃ e', (for_each step servers e w).2 = Ok e')
  ∧ ∀ targets,
      let record := {| category := "FORBIDDEN"; msg := unauthorized_msg ctx targets |} in
      logfile (log_unauthorized ctx targets w).1 = logfile w ++ [record]
      ∧ occurs_in (command_name ctx) (msg record)
      ∧ occurs_in (author ctx) (msg record)
      ∧ occurs_in (author_id ctx) (msg record)
      ∧ occurs_in (channel ctx) (msg record)
      ∧ occurs_in (String.concat ", " targets) (msg record).
Proof.
  intros Hstep Hallowed.
  destruct (for_each_forbidden ctx step allowed Hstep servers e w Hallowed)
    as [Hrecords Hend].
  split; [exact Hrecords|]. split; [exact Hend|].
  intros targets record. split; [done|]. apply unauthorized_msg_content.
Qed.

Lemma C6_forbidden_records_witness :
  let ctx := user_ctx "start" "7" in
  let e := {| embed_title := "Start Results"; fields := [] |} in
  forbidden (logfile (for_each (act_on ctx do_start) ["beta"; "alpha"; "gamma"] e w1).1) =
    [denial ctx "beta"; denial ctx "alpha"; denial ctx "gamma"].
Proof.
  intros ctx e.
  assert (Hstep : act_on ctx do_start ∈ target_steps ctx) by (do 3 constructor).
  assert (Hallowed : (perm_check ctx w1).2 = Ok []) by (by vm_compute).
  destruct (C6_forbidden_records ctx (act_on ctx do_start) ["beta"; "alpha"; "gamma"]
              e w1 [] Hstep Hallowed)
    as ((handled & _ & Hlog & Hall) & Hend & _).
  rewrite Hlog, Hall; [by vm_compute|].
  apply Hend. by intros s _ ?%elem_of_nil.
Defined.

(** ** C9: the line count of [get_logs] *)

(** C9 (the program rejects the command): a word for the line count that
    [int] does not take never reaches the body of [get_logs].  The
    conversion that the declaration [numlines: int = 10] asks of the
    framework raises BadArgument, and the command ends there, without a
    log line, a backend call or a message.  The default of the handler in
    the body is never used: [int] of an int raises nothing, so the body
    runs [tail] with the count it is given, which is the converted word,
    or 10 when the message has none. *)
Theorem C9_malformed_count_is_rejected int_of_str ctx server word w :
  int_of_str word = None →
  invoke_get_logs int_of_str ctx server (Some word) w = (w, Raise BadArgument)
  ∧ (∀ numlines, parse_numlines numlines = numlines)
  ∧ (∀ text n, int_of_str text = Some n →
       invoke_get_logs int_of_str ctx server (Some text) w = get_logs ctx server n w)
  ∧ invoke_get_logs int_of_str ctx server None w = get_logs ctx server 10 w.
Proof.
  intros Hword. unfold invoke_get_logs, convert_numlines.
  split; [by rewrite bind_run, Hword|]. split; [done|].
  split; [|done]. intros text n Htext. by rewrite bind_run, Htext.
Qed.

Lemma C9_malformed_count_is_rejected_witness :
  let ctx := user_ctx "get_logs" "1" in
  invoke_get_logs int_of_decimal ctx "alpha" (Some "ten") w1 = (w1, Raise BadArgument)
  ∧ docker_calls (invoke_get_logs int_of_decimal ctx "alpha" (Some "20") w1).1 =
      [Exec "alpha" "tail -n20 logs/latest.log"].
Proof.
  intros ctx.
  destruct (C9_malformed_count_is_rejected int_of_decimal ctx "alpha" "ten" w1 eq_refl)
    as (Hrejected & _ & Htaken & _).
  split; [exact Hrejected|]. by rewrite (Htaken "20" 20%Z eq_refl).
Defined.

(** ** C7, C8: grant and revoke *)

Lemma names_of_total (l : list (gmap string value)) :
  (∀ s, s ∈ l → is_Some (s !! "name")) →
  ∃ names, names_of l = Ok names ∧ Forall2 (λ s n, s !! "name" = Some n) l names.
Proof.
  induction l as [|s l IH]; intros Hname; simpl.
  - exists []. split; [done|constructor].
  - destruct (Hname s) as [n Hn]; [by left|]. rewrite Hn.
    destruct IH as (names & -> & HF); [intros; apply Hname; by right|].
    exists (n :: names). split; [done|by constructor].
Qed.

Lemma names_elem target (l : list (gmap string value)) names :
  Forall2 (λ s n, s !! "name" = Some n) l names →
  VStr target ∈ names ↔ Exists (named target) l.
Proof.
  induction 1 as [|s n l names Hn HF IH].
  - rewrite elem_of_nil, Exists_nil. done.
  - rewrite elem_of_cons, Exists_cons, IH. unfold named. rewrite Hn.
    split; (intros [Heq|?]; [left|by right]); congruence.
Qed.

Lemma update_selected_ok action tu perm target (l : list (gmap string value)) names :
  Forall2 (λ s n, s !! "name" = Some n) l names →
  (∀ s, s ∈ l → named target s → (update_entry action tu perm s).2 = Ok tt) →
  update_selected action tu perm ((λ n, bool_decide (n = VStr target)) <$> names) l =
    ((λ s, if bool_decide (named target s)
           then (update_entry action tu perm s).1 else s) <$> l, Ok tt).
Proof.
  induction 1 as [|s n l names Hn HF IH]; intros Hok; [done|].
  rewrite !fmap_cons. simpl.
  rewrite IH by (intros; apply Hok; [by right|done]).
  destruct (decide (n = VStr target)) as [->|Hne].
  - rewrite bool_decide_eq_true_2 by done.
    rewrite (bool_decide_eq_true_2 (named target s)) by exact Hn.
    specialize (Hok s (list_elem_of_here _ _) Hn).
    destruct (update_entry action tu perm s) as [s' r]. simpl in *. by rewrite Hok.
  - rewrite bool_decide_eq_false_2 by done.
    rewrite (bool_decide_eq_false_2 (named target s)); [done|].
    unfold named. rewrite Hn. congruence.
Qed.

Lemma ensure_entry_run target w (d : document) :
  json_permissions w = Some d →
  (∀ s, s ∈ servers d → is_Some (s !! "name")) →
  ∃ w', ensure_entry target w = (w', Ok tt)
    ∧ json_permissions w' = Some (with_entry target d)
    ∧ permissions_file w' = permissions_file w.
Proof.
  intros Hd Hname. unfold ensure_entry, get_permissions, with_entry.
  rewrite bind_run, Hd.
  destruct (names_of_total _ Hname) as (names & Hnames & HF).
  rewrite bind_run. unfold lift. rewrite Hnames.
  destruct (decide (VStr target ∈ names)) as [Hin|Hout].
  - rewrite !bool_decide_eq_true_2; [by exists w|by apply (names_elem target _ names)|done].
  - rewrite !bool_decide_eq_false_2; [by eexists| |done].
    by rewrite <- (names_elem target _ names).
Qed.

Lemma apply_change_run action tu target perm w (d : document) :
  json_permissions w = Some d →
  (∀ s, s ∈ servers d → is_Some (s !! "name")) →
  (∀ s, s ∈ servers d → named target s → (update_entry action tu perm s).2 = Ok tt) →
  ∃ w', apply_change action tu target perm w = (w', Ok tt)
    ∧ json_permissions w' =
        Some {| admins := admins d;
                servers := (λ s, if bool_decide (named target s)
                                 then (update_entry action tu perm s).1 else s)
                           <$> servers d |}
    ∧ permissions_file w' = permissions_file w.
Proof.
  intros Hd Hname Hok. unfold apply_change, get_permissions.
  rewrite bind_run, Hd.
  destruct (names_of_total _ Hname) as (names & Hnames & HF).
  rewrite bind_run. unfold lift. rewrite Hnames.
  rewrite (update_selected_ok action tu perm target _ names HF Hok).
  by eexists.
Qed.

Lemma save_permissions_run w (d : document) :
  json_permissions w = Some d →
  writable (permissions_file w) →
  ∃ w', save_permissions w = (w', Ok tt)
    ∧ json_permissions w' = Some d
    ∧ permissions_file w' = Present (Json d).
Proof.
  intros Hd Hfile. unfold save_permissions, get_permissions, write_permissions.
  rewrite bind_run, Hd, bind_run.
  destruct (permissions_file w); try done; by eexists.
Qed.

Lemma acknowledge_run ctx action user target perm w :
  ∃ w', acknowledge ctx action user target perm w = (w', told ctx action user target perm)
    ∧ json_permissions w' = json_permissions w
    ∧ permissions_file w' = permissions_file w.
Proof.
  unfold acknowledge, log_info, told, takes_dm, create_dm, send_dm. rewrite bind_run.
  destruct (channel_kind ctx), (dm_channel ctx), (dm_opens ctx),
    (dm_accepts ctx (receipt ctx action user target perm)); by eexists.
Qed.

(** A run of [permissions] by an administrator in which no loop body
    raises and the file can be written: the document is changed and
    written, whether or not the requester can be told afterwards. *)
Lemma permissions_run ctx action user target perm w (d : document) :
  json_permissions w = Some d →
  author_id ctx ∈ admins d →
  (∀ s, s ∈ servers d → is_Some (s !! "name")) →
  (∀ s, s ∈ servers (with_entry target d) → named target s →
        (update_entry action (target_user ctx user) perm s).2 = Ok tt) →
  writable (permissions_file w) →
  let d' := {| admins := admins d;
               servers := (λ s, if bool_decide (named target s)
                                then (update_entry action (target_user ctx user) perm s).1
                                else s) <$> servers (with_entry target d) |} in
  ∃ w', permissions ctx action user target perm w =
          (w', told ctx action user target perm)
    ∧ json_permissions w' = Some d'
    ∧ permissions_file w' = Present (Json d').
Proof.
  intros Hd Hadm Hname Hok Hfile d'. unfold permissions.
  rewrite bind_run. unfold get_permissions at 1. rewrite Hd.
  rewrite bool_decide_eq_true_2 by done.
  destruct (ensure_entry_run target w d Hd Hname) as (w1 & Hrun1 & Hd1 & Hf1).
  rewrite bind_run, Hrun1.
  assert (Hname1 : ∀ s, s ∈ servers (with_entry target d) → is_Some (s !! "name")).
  { unfold with_entry. case_bool_decide; [done|]. simpl.
    intros s [Hs| ->%list_elem_of_singleton]%elem_of_app; [by apply Hname|done]. }
  destruct (apply_change_run action (target_user ctx user) target perm w1 _ Hd1 Hname1 Hok)
    as (w2 & Hrun2 & Hd2 & Hf2).
  rewrite bind_run, Hrun2.
  assert (Hadmins : admins (with_entry target d) = admins d)
    by (unfold with_entry; by case_bool_decide).
  rewrite Hadmins in Hd2.
  destruct (save_permissions_run w2 d' Hd2) as (w3 & Hrun3 & Hd3 & Hf3).
  { by rewrite Hf2, Hf1. }
  rewrite bind_run, Hrun3.
  destruct (acknowledge_run ctx action user target perm w3) as (w4 & Hrun4 & Hd4 & Hf4).
  rewrite Hrun4. exists w4. by rewrite Hd4, Hf4.
Qed.

Lemma default_entry_named target : named target (default_entry target).
Proof. done. Qed.

Lemma default_entry_lists target key v :
  key ≠ "name" → default_entry target !! key = Some v → v = VList [].
Proof.
  intros Hkey Hv. unfold default_entry in Hv. simpl in Hv.
  repeat (apply lookup_insert_Some in Hv as [[? ?]|[? Hv]]; [by simplify_eq|]).
  by rewrite lookup_empty in Hv.
Qed.

Lemma with_entry_admins target d : admins (with_entry target d) = admins d.
Proof. unfold with_entry. by case_bool_decide. Qed.

Lemma with_entry_elem target (d : document) s :
  s ∈ servers (with_entry target d) → s ∈ servers d ∨ s = default_entry target.
Proof.
  unfold with_entry. case_bool_decide; [by left|]. simpl.
  intros [?| ->%list_elem_of_singleton]%elem_of_app; [by left|by right].
Qed.

Lemma with_entry_has target d : Exists (named target) (servers (with_entry target d)).
Proof.
  unfold with_entry. case_bool_decide; [done|]. simpl.
  apply Exists_app. right. apply Exists_cons. left. apply default_entry_named.
Qed.

Lemma with_entry_present target (d : document) :
  Exists (named target) (servers d) → with_entry target d = d.
Proof. intros Hex. unfold with_entry. by rewrite bool_decide_eq_true_2. Qed.

(** The body of the loop for a revoke that finds nothing to remove. *)
Lemma update_entry_revoke_absent tu perm (s : gmap string value) :
  (∀ users, s !! perm = Some users → py_in tu users = false) →
  update_entry "revoke" tu perm s =
    (if bool_decide (s !! perm = None) then <[perm := VList []]> s else s, Ok tt).
Proof.
  intros Habsent. unfold update_entry.
  destruct (s !! perm) as [users|] eqn:Hperm.
  - rewrite (Habsent users eq_refl), andb_false_r.
    rewrite (bool_decide_eq_false_2 (Some users = None)) by done.
    by rewrite (bool_decide_eq_false_2 ("revoke" = "grant")).
  - rewrite (bool_decide_eq_true_2 (None = None)) by done.
    by rewrite (bool_decide_eq_false_2 ("revoke" = "grant")).
Qed.

(** C8: a revoke by an administrator for an identity that is in no list
    of the target under the action key leaves the document as it was, up
    to the entry (the default one, appended) and the key (with the empty
    list) that the command creates where they are missing; where both are
    there already the document does not change at all.  The document is
    written to the file in either case, and the run ends with the receipt
    sent to the requester, or with the exception of a requester who
    cannot be told. *)
Theorem C8_revoke_absent_identity ctx user target perm w (d : document) :
  json_permissions w = Some d →
  author_id ctx ∈ admins d →
  (∀ s, s ∈ servers d → is_Some (s !! "name")) →
  perm ≠ "name" →
  (∀ s users, s ∈ servers d → named target s → s !! perm = Some users →
              py_in (target_user ctx user) users = false) →
  writable (permissions_file w) →
  let d' := with_key target perm (with_entry target d) in
  ∃ w', permissions ctx "revoke" user target perm w =
          (w', told ctx "revoke" user target perm)
    ∧ json_permissions w' = Some d'
    ∧ permissions_file w' = Present (Json d')
    ∧ (Exists (named target) (servers d) →
       (∀ s, s ∈ servers d → named target s → is_Some (s !! perm)) →
       d' = d).
Proof.
  intros Hd Hadm Hname Hperm Habsent Hfile d'.
  assert (Habsent' : ∀ s, s ∈ servers (with_entry target d) → named target s →
            ∀ users, s !! perm = Some users → py_in (target_user ctx user) users = false).
  { intros s [Hs| ->]%with_entry_elem Hnamed users Husers; [by eapply Habsent|].
    by rewrite (default_entry_lists target perm users Hperm Husers). }
  destruct (permissions_run ctx "revoke" user target perm w d Hd Hadm Hname) as (w' & Hrun & Hd' & Hf');
    [|done|].
  { intros s Hs Hnamed. rewrite update_entry_revoke_absent; [done|by apply Habsent']. }
  assert (Heq : {| admins := admins d;
                   servers := (λ s, if bool_decide (named target s)
                       then (update_entry "revoke" (target_user ctx user) perm s).1
                       else s) <$> servers (with_entry target d) |} = d').
  { unfold d', with_key. rewrite with_entry_admins. f_equal.
    apply list_fmap_ext. intros i s Hs%list_elem_of_lookup_2.
    destruct (decide (named target s)) as [Hnamed|Hnot].
    - rewrite bool_decide_eq_true_2 by done.
      rewrite update_entry_revoke_absent by (by apply Habsent'). simpl.
      destruct (decide (s !! perm = None)).
      + by rewrite !bool_decide_eq_true_2.
      + rewrite !bool_decide_eq_false_2; [done|tauto|done].
    - rewrite !bool_decide_eq_false_2; [done|tauto|done]. }
  rewrite Heq in Hd', Hf'. exists w'. repeat split; try done.
  intros Hex Hkey. unfold d'. rewrite with_entry_present by done.
  unfold with_key. destruct d as [adm srv]. simpl in *. f_equal.
  rewrite <- (list_fmap_id srv) at 2. apply list_fmap_ext.
  intros i s Hs%list_elem_of_lookup_2. rewrite bool_decide_eq_false_2; [done|].
  intros [Hnamed Hnone]. destruct (Hkey s Hs Hnamed) as [v Hv]. congruence.
Qed.

Lemma C8_revoke_absent_identity_witness :
  ∃ w', permissions (user_ctx "permissions" "1") "revoke" "9" "alpha" "status" w1 = (w', Ok tt)
    ∧ json_permissions w' = Some doc1.
Proof.
  assert (Hadm : author_id (user_ctx "permissions" "1") ∈ admins doc1)
    by (simpl; constructor).
  assert (Hname : ∀ s, s ∈ servers doc1 → is_Some (s !! "name")).
  { intros s Hs. simpl in Hs.
    apply elem_of_cons in Hs as [->|Hs]; [by eexists|].
    apply list_elem_of_singleton in Hs as ->. by eexists. }
  assert (Habsent : ∀ s users, s ∈ servers doc1 → named "alpha" s →
            s !! "status" = Some users →
            py_in (target_user (user_ctx "permissions" "1") "9") users = false).
  { intros s users Hs Hnamed Husers. simpl in Hs.
    apply elem_of_cons in Hs as [->|Hs].
    - vm_compute in Husers. by injection Husers as <-.
    - apply list_elem_of_singleton in Hs as ->. vm_compute in Hnamed. discriminate Hnamed. }
  destruct (C8_revoke_absent_identity (user_ctx "permissions" "1") "9" "alpha" "status"
              w1 doc1 eq_refl Hadm Hname ltac:(discriminate) Habsent I)
    as (w' & Hrun & Hd' & _ & Hsame).
  exists w'. split; [exact Hrun|]. rewrite Hd'. rewrite Hsame; [done| |].
  - apply Exists_cons. left. by vm_compute.
  - intros s Hs Hnamed. simpl in Hs.
    apply elem_of_cons in Hs as [->|Hs]; [by eexists|].
    apply list_elem_of_singleton in Hs as ->. by eexists.
Defined.

(** The body of the loop for a grant, on an entry whose value under the
    key, if any, is a set of ids. *)
Lemma update_entry_grant tu perm (s : gmap string value) :
  (∀ v, s !! perm = Some v → ∃ l, v = VList l ∧ NoDup l) →
  ∃ s' l', update_entry "grant" tu perm s = (s', Ok tt)
    ∧ s' !! perm = Some (VList l') ∧ tu ∈ l' ∧ NoDup l'
    ∧ ∀ key, key ≠ perm → s' !! key = s !! key.
Proof.
  intros Htyped. unfold update_entry.
  rewrite (bool_decide_eq_true_2 ("grant" = "grant")) by done.
  rewrite (bool_decide_eq_false_2 ("grant" = "revoke")) by done.
  destruct (s !! perm) as [v|] eqn:Hperm.
  - destruct (Htyped v eq_refl) as (l & -> & Hnodup). simpl.
    destruct (decide (tu ∈ l)) as [Hin|Hout].
    + rewrite bool_decide_eq_true_2 by done. simpl. by exists s, l.
    + rewrite bool_decide_eq_false_2 by done. simpl.
      exists (<[perm := VList (l ++ [tu])]> s), (l ++ [tu]).
      split; [done|]. split; [by rewrite lookup_insert_eq|].
      split; [apply elem_of_app; right; constructor|]. split.
      * apply NoDup_app. repeat split; [done| |apply NoDup_singleton].
        intros x Hx ->%list_elem_of_singleton. done.
      * intros key Hkey. by rewrite lookup_insert_ne.
  - simpl. exists (<[perm := VList [tu]]> (<[perm := VList []]> s)), [tu].
    split; [done|]. split; [by rewrite lookup_insert_eq|].
    split; [constructor|]. split; [apply NoDup_singleton|].
    intros key Hkey. by rewrite !lookup_insert_ne.
Qed.

(** The same body on an entry that holds the identity already. *)
Lemma update_entry_grant_again tu perm (s : gmap string value) l :
  s !! perm = Some (VList l) → tu ∈ l →
  update_entry "grant" tu perm s = (s, Ok tt).
Proof.
  intros Hperm Hin. unfold update_entry. rewrite Hperm. simpl.
  by rewrite (bool_decide_eq_true_2 (tu ∈ l)).
Qed.

(** C7: a grant by an administrator, made twice, where the entries of the
    target hold a set of ids under the action key.  Both runs change and
    write the document and end with the receipt sent to the requester (or
    with the exception of a requester who cannot be told); after the
    first, every entry of the target holds the identity exactly once under
    the action key; the second changes neither the document nor the
    file. *)
Theorem C7_grant_twice ctx user target perm w (d : document) :
  json_permissions w = Some d →
  author_id ctx ∈ admins d →
  (∀ s, s ∈ servers d → is_Some (s !! "name")) →
  holds_sets target perm d →
  perm ≠ "name" →
  writable (permissions_file w) →
  ∃ w1 w2 (d1 : document),
    permissions ctx "grant" user target perm w = (w1, told ctx "grant" user target perm)
    ∧ permissions ctx "grant" user target perm w1 = (w2, told ctx "grant" user target perm)
    ∧ json_permissions w1 = Some d1 ∧ json_permissions w2 = Some d1
    ∧ permissions_file w1 = Present (Json d1)
    ∧ permissions_file w2 = Present (Json d1)
    ∧ Exists (named target) (servers d1)
    ∧ ∀ s, s ∈ servers d1 → named target s →
        ∃ l, s !! perm = Some (VList l) ∧ target_user ctx user ∈ l ∧ NoDup l.
Proof.
  intros Hd Hadm Hname Hsets Hperm Hfile.
  set (tu := target_user ctx user).
  assert (Htyped : ∀ s, s ∈ servers (with_entry target d) → named target s →
            ∀ v, s !! perm = Some v → ∃ l, v = VList l ∧ NoDup l).
  { intros s [Hs| ->]%with_entry_elem Hnamed v Hv.
    - by apply (Hsets s).
    - rewrite (default_entry_lists target perm v Hperm Hv). exists []. split; [done|constructor]. }
  set (grant := λ s : gmap string value,
         if bool_decide (named target s) then (update_entry "grant" tu perm s).1 else s).
  destruct (permissions_run ctx "grant" user target perm w d Hd Hadm Hname)
    as (w1 & Hrun1 & Hd1 & Hf1); [|done|].
  { intros s Hs Hnamed. destruct (update_entry_grant tu perm s (Htyped s Hs Hnamed))
      as (s' & l' & Heq & _). fold tu. by rewrite Heq. }
  fold tu grant in Hd1, Hf1.
  set (d1 := {| admins := admins d; servers := grant <$> servers (with_entry target d) |}) in *.
  (* what the first grant leaves *)
  assert (Hgrant_named : ∀ s, s ∈ servers (with_entry target d) →
            (named target (grant s) ↔ named target s)).
  { intros s Hs. unfold grant. case_bool_decide as Hnamed; [|done].
    destruct (update_entry_grant tu perm s (Htyped s Hs Hnamed))
      as (s' & l' & Heq & _ & _ & _ & Hother).
    rewrite Heq. simpl. unfold named. by rewrite Hother. }
  assert (Hheld : ∀ s, s ∈ servers d1 → named target s →
            ∃ l, s !! perm = Some (VList l) ∧ tu ∈ l ∧ NoDup l).
  { intros s1 (s & -> & Hs)%list_elem_of_fmap Hnamed.
    apply (Hgrant_named s Hs) in Hnamed. unfold grant.
    rewrite bool_decide_eq_true_2 by done.
    destruct (update_entry_grant tu perm s (Htyped s Hs Hnamed))
      as (s' & l' & Heq & Hl' & Hin & Hnodup & _).
    rewrite Heq. by exists l'. }
  assert (Hhas : Exists (named target) (servers d1)).
  { apply Exists_exists. pose proof (with_entry_has target d) as Hentry.
    apply Exists_exists in Hentry as (s & Hs & Hnamed).
    exists (grant s). split; [by apply list_elem_of_fmap_2|by apply Hgrant_named]. }
  assert (Hname1 : ∀ s, s ∈ servers d1 → is_Some (s !! "name")).
  { intros s1 (s & -> & Hs)%list_elem_of_fmap. unfold grant. case_bool_decide as Hnamed.
    - destruct (update_entry_grant tu perm s (Htyped s Hs Hnamed))
        as (s' & l' & Heq & _ & _ & _ & Hother).
      rewrite Heq. simpl. rewrite Hother by done. by eexists.
    - destruct (with_entry_elem _ _ _ Hs) as [Hs'| ->]; [by apply Hname|by eexists]. }
  (* the second grant *)
  destruct (permissions_run ctx "grant" user target perm w1 d1 Hd1 Hadm Hname1)
    as (w2 & Hrun2 & Hd2 & Hf2).
  { rewrite with_entry_present by done. intros s Hs Hnamed.
    destruct (Hheld s Hs Hnamed) as (l & Hl & Hin & _).
    fold tu. by rewrite (update_entry_grant_again tu perm s l). }
  { by rewrite Hf1. }
  assert (Hsame : {| admins := admins d1;
                     servers := (λ s, if bool_decide (named target s)
                                      then (update_entry "grant" (target_user ctx user) perm s).1
                                      else s) <$> servers (with_entry target d1) |} = d1).
  { rewrite with_entry_present by done.
    transitivity {| admins := admins d1; servers := id <$> servers d1 |};
      [|by rewrite list_fmap_id].
    f_equal. apply list_fmap_ext.
    intros i s Hs%list_elem_of_lookup_2. case_bool_decide as Hnamed; [|done].
    destruct (Hheld s Hs Hnamed) as (l & Hl & Hin & _).
    fold tu. by rewrite (update_entry_grant_again tu perm s l). }
  rewrite Hsame in Hd2, Hf2.
  exists w1, w2, d1. repeat split; done.
Qed.

Lemma C7_grant_twice_witness :
  ∃ w2 w3 (d : document),
    permissions (user_ctx "permissions" "1") "grant" "9" "alpha" "status" w2 = (w3, Ok tt)
    ∧ json_permissions w2 = Some d ∧ json_permissions w3 = Some d.
Proof.
  assert (Hadm : author_id (user_ctx "permissions" "1") ∈ admins doc1)
    by (simpl; constructor).
  assert (Hcases : ∀ s, s ∈ servers doc1 →
            s = <["restart" := VList ["7"]]>
                  (<["status" := VList ["7"]]> (default_entry "alpha"))
            ∨ s = default_entry "beta").
  { intros s Hs. simpl in Hs.
    apply elem_of_cons in Hs as [->|Hs]; [by left|].
    apply list_elem_of_singleton in Hs as ->. by right. }
  assert (Hname : ∀ s, s ∈ servers doc1 → is_Some (s !! "name")).
  { intros s Hs. destruct (Hcases s Hs) as [-> | ->]; by eexists. }
  assert (Hsets : holds_sets "alpha" "status" doc1).
  { intros s v Hs Hnamed Hv. destruct (Hcases s Hs) as [-> | ->].
    - vm_compute in Hv. injection Hv as <-. exists ["7"]. split; [done|apply NoDup_singleton].
    - vm_compute in Hnamed. discriminate Hnamed. }
  destruct (C7_grant_twice (user_ctx "permissions" "1") "9" "alpha" "status" w1 doc1
              eq_refl Hadm Hname Hsets ltac:(discriminate) I)
    as (w2 & w3 & d & _ & Hrun & Hd2 & Hd3 & _).
  by exists w2, w3, d.
Defined.

(** * Further properties *)

(** ** The phases of [permissions] *)

Lemma selected_names target (l : list (gmap string value)) names :
  Forall2 (λ s n, s !! "name" = Some n) l names →
  (λ n, bool_decide (n = VStr target)) <$> names = selected target l.
Proof.
  induction 1 as [|s n l names Hn HF IH]; [done|].
  unfold selected. rewrite !fmap_cons. f_equal; [|exact IH].
  apply bool_decide_ext. unfold named. rewrite Hn. split; congruence.
Qed.

Lemma with_entry_names target (d : document) :
  (∀ s, s ∈ servers d → is_Some (s !! "name")) →
  ∀ s, s ∈ servers (with_entry target d) → is_Some (s !! "name").
Proof.
  intros Hname s [Hs| ->]%with_entry_elem; [by apply Hname|by eexists].
Qed.

Lemma ensure_entry_cases target w (d : document) :
  json_permissions w = Some d →
  (∀ s, s ∈ servers d → is_Some (s !! "name")) →
  ∃ w', ensure_entry target w = (w', Ok tt)
    ∧ json_permissions w' = Some (with_entry target d)
    ∧ same_outside w w'.
Proof.
  intros Hd Hname. unfold ensure_entry, get_permissions, with_entry.
  rewrite bind_run, Hd.
  destruct (names_of_total _ Hname) as (names & Hnames & HF).
  rewrite bind_run. unfold lift. rewrite Hnames.
  destruct (decide (VStr target ∈ names)) as [Hin|Hout].
  - rewrite !bool_decide_eq_true_2; [by exists w|by apply (names_elem target _ names)|done].
  - rewrite !bool_decide_eq_false_2; [by eexists| |done].
    by rewrite <- (names_elem target _ names).
Qed.

Lemma apply_change_cases action tu target perm w (d : document) :
  json_permissions w = Some d →
  (∀ s, s ∈ servers d → is_Some (s !! "name")) →
  let upd := update_selected action tu perm (selected target (servers d)) (servers d) in
  ∃ w', apply_change action tu target perm w = (w', upd.2)
    ∧ json_permissions w' = Some {| admins := admins d; servers := upd.1 |}
    ∧ same_outside w w'.
Proof.
  intros Hd Hname upd. unfold apply_change, get_permissions.
  rewrite bind_run, Hd.
  destruct (names_of_total _ Hname) as (names & Hnames & HF).
  rewrite bind_run. unfold lift. rewrite Hnames.
  rewrite (selected_names target _ names HF). fold upd.
  destruct upd as [servers' r]. by eexists.
Qed.

Lemma save_permissions_cases w (d : document) :
  json_permissions w = Some d →
  (writable (permissions_file w) →
     ∃ w', save_permissions w = (w', Ok tt)
       ∧ json_permissions w' = Some d
       ∧ permissions_file w' = Present (Json d)
       ∧ logfile w' = logfile w ∧ outbox w' = outbox w)
  ∧ (¬ writable (permissions_file w) → ∃ e, save_permissions w = (w, Raise e)).
Proof.
  intros Hd. unfold save_permissions, get_permissions, write_permissions.
  rewrite bind_run, Hd, bind_run.
  destruct (permissions_file w); simpl; split; intros Hfile;
    first [done | by eexists | by destruct Hfile].
Qed.

Lemma acknowledge_cases ctx action user target perm w :
  ∃ w' line,
    acknowledge ctx action user target perm w = (w', told ctx action user target perm)
    ∧ json_permissions w' = json_permissions w
    ∧ permissions_file w' = permissions_file w
    ∧ category line = "INFO"
    ∧ logfile w' = logfile w ++ [line]
    ∧ outbox w' =
        outbox w
        ++ match channel_kind ctx with
           | Text_channel => [Deleted_message]
           | Private_channel | Group_channel => []
           end
        ++ dm_outputs ctx (receipt ctx action user target perm).
Proof.
  unfold acknowledge, log_info, told, dm_outputs, takes_dm, create_dm, send_dm.
  rewrite bind_run.
  destruct (channel_kind ctx), (dm_channel ctx), (dm_opens ctx),
    (dm_accepts ctx (receipt ctx action user target perm)); do 2 eexists;
    (split; [reflexivity|]); simpl; rewrite <- ?app_assoc, ?app_nil_r; by repeat split.
Qed.

(** A run of [permissions] by an administrator, in every outcome: the
    document in memory afterwards, the result, the file, the log and the
    messages. *)
Lemma permissions_cases ctx action user target perm w (d : document) :
  json_permissions w = Some d →
  author_id ctx ∈ admins d →
  (∀ s, s ∈ servers d → is_Some (s !! "name")) →
  let upd := changed ctx action user target perm d in
  let d' := {| admins := admins d; servers := upd.1 |} in
  let after := permissions ctx action user target perm w in
  json_permissions after.1 = Some d'
  ∧ (∀ e, upd.2 = Raise e →
       after.2 = Raise e ∧ permissions_file after.1 = permissions_file w
       ∧ logfile after.1 = logfile w ∧ outbox after.1 = outbox w)
  ∧ (upd.2 = Ok tt → ¬ writable (permissions_file w) →
       (∃ e, after.2 = Raise e) ∧ permissions_file after.1 = permissions_file w
       ∧ logfile after.1 = logfile w ∧ outbox after.1 = outbox w)
  ∧ (upd.2 = Ok tt → writable (permissions_file w) →
       after.2 = told ctx action user target perm
       ∧ permissions_file after.1 = Present (Json d')
       ∧ (∃ line, category line = "INFO" ∧ logfile after.1 = logfile w ++ [line])
       ∧ outbox after.1 =
           outbox w
           ++ match channel_kind ctx with
              | Text_channel => [Deleted_message]
              | Private_channel | Group_channel => []
              end
           ++ dm_outputs ctx (receipt ctx action user target perm)).
Proof.
  intros Hd Hadm Hname upd d' after.
  destruct (ensure_entry_cases target w d Hd Hname)
    as (w1 & Hrun1 & Hd1 & Hf1 & Hl1 & _ & _ & Ho1 & _).
  destruct (apply_change_cases action (target_user ctx user) target perm w1 _ Hd1
              (with_entry_names target d Hname))
    as (w2 & Hrun2 & Hd2 & Hf2 & Hl2 & _ & _ & Ho2 & _).
  rewrite with_entry_admins in Hd2. fold (changed ctx action user target perm d) in Hrun2, Hd2.
  fold upd in Hrun2, Hd2. fold d' in Hd2.
  assert (Hstart : after =
            (apply_change action (target_user ctx user) target perm
               ≫= λ _, save_permissions ≫= λ _, acknowledge ctx action user target perm) w1).
  { subst after. unfold permissions. rewrite bind_run. unfold get_permissions at 1.
    rewrite Hd, bool_decide_eq_true_2 by done. by rewrite bind_run, Hrun1. }
  rewrite bind_run, Hrun2 in Hstart.
  destruct (upd.2) as [[]|e] eqn:Hupd.
  - destruct (save_permissions_cases w2 d' Hd2) as [Hsave Hfail].
    rewrite bind_run in Hstart.
    destruct (decide (writable (permissions_file w))) as [Hfile|Hfile].
    + destruct Hsave as (w3 & Hrun3 & Hd3 & Hf3 & Hl3 & Ho3); [by rewrite Hf2, Hf1|].
      rewrite Hrun3 in Hstart.
      destruct (acknowledge_cases ctx action user target perm w3)
        as (w4 & line & Hrun4 & Hd4 & Hf4 & Hline & Hl4 & Ho4).
      rewrite Hrun4 in Hstart. rewrite Hstart. simpl.
      split; [by rewrite Hd4|].
      split; [done|]. split; [done|]. intros _ _.
      split; [done|]. split; [by rewrite Hf4|].
      split; [exists line; by rewrite Hl4, Hl3, Hl2, Hl1|].
      by rewrite Ho4, Ho3, Ho2, Ho1.
    + destruct Hfail as [e Hrun3]; [by rewrite Hf2, Hf1|].
      rewrite Hrun3 in Hstart. rewrite Hstart. simpl.
      split; [done|]. split; [done|].
      split; [|done]. intros _ _.
      split; [by exists e|]. by rewrite Hf2, Hf1, Hl2, Hl1, Ho2, Ho1.
  - rewrite Hstart. simpl. split; [done|]. split; [|done].
    intros e' [= <-]. by rewrite Hf2, Hf1, Hl2, Hl1, Ho2, Ho1.
Qed.

(** ** X1: the administrative commands refuse everybody else *)

(** X1: [permissions] and [dump_perms] called by an identity that is not
    an administrator change neither the document nor the file and send
    nothing; each leaves one FORBIDDEN record, naming PERMISSIONS_FILE and
    DEBUG_FUNCTION. *)
Theorem administration_is_for_admins json_dumps ctx action user target perm w (d : document) :
  json_permissions w = Some d →
  author_id ctx ∉ admins d →
  let after := permissions ctx action user target perm w in
  let dumped := dump_perms json_dumps ctx w in
  after.2 = Ok tt
  ∧ json_permissions after.1 = Some d
  ∧ permissions_file after.1 = permissions_file w
  ∧ outbox after.1 = outbox w
  ∧ logfile after.1 = logfile w ++ [denial ctx "PERMISSIONS_FILE"]
  ∧ dumped.2 = Ok tt
  ∧ json_permissions dumped.1 = Some d
  ∧ permissions_file dumped.1 = permissions_file w
  ∧ outbox dumped.1 = outbox w
  ∧ logfile dumped.1 = logfile w ++ [denial ctx "DEBUG_FUNCTION"].
Proof.
  intros Hd Hadm after dumped. subst after dumped.
  unfold permissions, dump_perms. rewrite !bind_run. unfold get_permissions.
  rewrite Hd, !bool_decide_eq_false_2 by done. by repeat split.
Qed.

Lemma administration_is_for_admins_witness :
  let after := permissions (user_ctx "permissions" "7") "grant" "7" "alpha" "kill" w1 in
  json_permissions after.1 = Some doc1 ∧ outbox after.1 = [].
Proof.
  destruct (administration_is_for_admins (λ _, "{}") (user_ctx "permissions" "7")
              "grant" "7" "alpha" "kill" w1 doc1 eq_refl)
    as (_ & Hdoc & _ & Hbox & _).
  - simpl. intros Hin. apply elem_of_cons in Hin as [Hin|Hin]; [discriminate Hin|].
    by apply elem_of_nil in Hin.
  - by split.
Defined.

(** ** X2: what [permissions] leaves alone *)

Lemma update_entry_frame action tu perm (s : gmap string value) key :
  key ≠ perm → (update_entry action tu perm s).1 !! key = s !! key.
Proof.
  intros Hkey. unfold update_entry.
  set (p := match s !! perm with
            | None => (<[perm := VList []]> s, VList [])
            | Some users => (s, users)
            end).
  assert (Hp : p.1 !! key = s !! key).
  { subst p. destruct (s !! perm); simpl; [done|]. by rewrite lookup_insert_ne. }
  destruct p as [s1 users]. simpl in Hp.
  destruct (bool_decide (action = "grant") && negb (py_in tu users)).
  - destruct users; simpl; [done|]. by rewrite lookup_insert_ne.
  - destruct (bool_decide (action = "revoke") && py_in tu users); simpl; [|done].
    by rewrite lookup_insert_ne.
Qed.

Lemma update_selected_frame action tu perm :
  ∀ (l : list (gmap string value)) sel i s,
    l !! i = Some s →
    ∃ s', (update_selected action tu perm sel l).1 !! i = Some s'
      ∧ (∀ key, key ≠ perm → s' !! key = s !! key)
      ∧ (sel !! i ≠ Some true → s' = s).
Proof.
  induction l as [|s0 l IH]; intros sel i s Hi; [done|].
  destruct sel as [|[|] sel]; simpl.
  - exists s. by repeat split.
  - destruct (update_entry action tu perm s0) as [s0' [[]|e]] eqn:Hupd.
    + destruct (update_selected action tu perm sel l) as [rest' r] eqn:Hrest.
      destruct i as [|i]; simpl in *.
      * injection Hi as <-. exists s0'. split; [done|]. split; [|done].
        intros key Hkey. change s0' with (s0', @Ok unit tt).1. rewrite <- Hupd.
        by apply update_entry_frame.
      * destruct (IH sel i s Hi) as (s' & Hs' & Hframe). rewrite Hrest in Hs'.
        by exists s'.
    + destruct i as [|i]; simpl in *.
      * injection Hi as <-. exists s0'. split; [done|]. split; [|done].
        intros key Hkey. change s0' with (s0', @Raise unit e).1. rewrite <- Hupd.
        by apply update_entry_frame.
      * exists s. by repeat split.
  - destruct (update_selected action tu perm sel l) as [rest' r] eqn:Hrest.
    destruct i as [|i]; simpl in *.
    + injection Hi as <-. exists s0. by repeat split.
    + destruct (IH sel i s Hi) as (s' & Hs' & Hframe). rewrite Hrest in Hs'.
      by exists s'.
Qed.

Lemma with_entry_lookup target (d : document) i s :
  servers d !! i = Some s → servers (with_entry target d) !! i = Some s.
Proof.
  intros Hi. unfold with_entry. case_bool_decide; [done|]. simpl.
  by apply lookup_app_l_Some.
Qed.

(** X2: whatever the action and however the run ends, a call of
    [permissions] by an administrator leaves the administrators, the
    entries of the other targets, and every key but the action key as
    they were. *)
Theorem permissions_frame ctx action user target perm w (d : document) :
  json_permissions w = Some d →
  author_id ctx ∈ admins d →
  (∀ s, s ∈ servers d → is_Some (s !! "name")) →
  ∃ d' : document, json_permissions (permissions ctx action user target perm w).1 = Some d'
    ∧ admins d' = admins d
    ∧ ∀ i s, servers d !! i = Some s →
        ∃ s', servers d' !! i = Some s'
          ∧ (∀ key, key ≠ perm → s' !! key = s !! key)
          ∧ (¬ named target s → s' = s).
Proof.
  intros Hd Hadm Hname.
  destruct (permissions_cases ctx action user target perm w d Hd Hadm Hname) as [Hdoc _].
  eexists. split; [exact Hdoc|]. split; [done|]. simpl.
  intros i s Hi. apply (with_entry_lookup target) in Hi.
  destruct (update_selected_frame action (target_user ctx user) perm _
              (selected target (servers (with_entry target d))) i s Hi)
    as (s' & Hs' & Hkeys & Hsame).
  exists s'. split; [exact Hs'|]. split; [exact Hkeys|].
  intros Hnot. apply Hsame. unfold selected. rewrite list_lookup_fmap, Hi. simpl.
  rewrite bool_decide_eq_false_2 by done. discriminate.
Qed.

Lemma permissions_frame_witness :
  ∃ d' : document, json_permissions
          (permissions (user_ctx "permissions" "1") "grant" "9" "beta" "kill" w1).1 = Some d'
    ∧ admins d' = ["1"]
    ∧ servers d' !! 0%nat = servers doc1 !! 0%nat.
Proof.
  assert (Hadm : author_id (user_ctx "permissions" "1") ∈ admins doc1)
    by (simpl; constructor).
  assert (Hname : ∀ s, s ∈ servers doc1 → is_Some (s !! "name")).
  { intros s Hs. simpl in Hs.
    apply elem_of_cons in Hs as [->|Hs]; [by eexists|].
    apply list_elem_of_singleton in Hs as ->. by eexists. }
  destruct (permissions_frame (user_ctx "permissions" "1") "grant" "9" "beta" "kill"
              w1 doc1 eq_refl Hadm Hname) as (d' & Hdoc & Hadmins & Hframe).
  exists d'. split; [exact Hdoc|]. split; [exact Hadmins|].
  destruct (Hframe 0%nat _ eq_refl) as (s' & -> & _ & Hsame).
  simpl. f_equal. apply Hsame. by vm_compute.
Defined.

(** ** X3: the document is on disk before the change is acknowledged *)

(** X3: [permissions] called by an administrator writes the file before
    it logs or sends anything: when the call returns, or has added to
    the log or to the messages, the file holds the document that is in
    memory.  A call that raises has either left the file, the log and the
    messages as they were, or it has written the file and logged the
    change and raised only then, for a requester who cannot be told. *)
Theorem permissions_saves_before_it_answers ctx action user target perm w (d : document) :
  json_permissions w = Some d →
  author_id ctx ∈ admins d →
  (∀ s, s ∈ servers d → is_Some (s !! "name")) →
  let after := permissions ctx action user target perm w in
  let saved :=
    ∃ d' : document, json_permissions after.1 = Some d'
      ∧ permissions_file after.1 = Present (Json d') in
  (after.2 = Ok tt ∨ logfile after.1 ≠ logfile w ∨ outbox after.1 ≠ outbox w → saved)
  ∧ (after.2 ≠ Ok tt →
       (permissions_file after.1 = permissions_file w
        ∧ logfile after.1 = logfile w ∧ outbox after.1 = outbox w)
       ∨ (after.2 = Raise HTTPException ∧ saved
          ∧ ∃ line, category line = "INFO" ∧ logfile after.1 = logfile w ++ [line])).
Proof.
  intros Hd Hadm Hname after saved.
  destruct (permissions_cases ctx action user target perm w d Hd Hadm Hname)
    as (Hdoc & Hraise & Hfail & Hdone).
  fold after in Hdoc, Hraise, Hfail, Hdone.
  destruct ((changed ctx action user target perm d).2) as [ []|e] eqn:Hupd.
  - destruct (decide (writable (permissions_file w))) as [Hfile|Hfile].
    + destruct (Hdone eq_refl Hfile) as (Hres & Hsaved & Hlog & _).
      assert (Hheld : saved) by (by eexists).
      split; [done|]. intros Hraised. right.
      split; [|done]. rewrite Hres in Hraised |- *. unfold told in *.
      by destruct (takes_dm _ _).
    + destruct (Hfail eq_refl Hfile) as ([e He] & Hf & Hl & Ho).
      split; [|by left]. intros [Hok|[Hlog|Hbox] ]; [congruence|done|done].
  - destruct (Hraise e eq_refl) as (He & Hf & Hl & Ho).
    split; [|by left]. intros [Hok|[Hlog|Hbox] ]; [congruence|done|done].
Qed.

Lemma permissions_saves_before_it_answers_witness :
  let after := permissions (closed_ctx "permissions" "1") "grant" "9" "beta" "kill" w1 in
  after.2 = Raise HTTPException
  ∧ ∃ d' : document, json_permissions after.1 = Some d'
      ∧ permissions_file after.1 = Present (Json d').
Proof.
  assert (Hadm : author_id (closed_ctx "permissions" "1") ∈ admins doc1)
    by (simpl; constructor).
  assert (Hname : ∀ s, s ∈ servers doc1 → is_Some (s !! "name")).
  { intros s Hs. simpl in Hs.
    apply elem_of_cons in Hs as [->|Hs]; [by eexists|].
    apply list_elem_of_singleton in Hs as ->. by eexists. }
  destruct (permissions_saves_before_it_answers (closed_ctx "permissions" "1")
              "grant" "9" "beta" "kill" w1 doc1 eq_refl Hadm Hname) as [Hsaved _].
  split; [by vm_compute|]. apply Hsaved. right. left. by vm_compute.
Defined.

(** ** X4: an action that is neither grant nor revoke *)

Lemma changed_map ctx action user target perm (d : document) (f : gmap string value → gmap string value) :
  (∀ s, s ∈ servers d → is_Some (s !! "name")) →
  (∀ s, s ∈ servers (with_entry target d) → named target s →
        update_entry action (target_user ctx user) perm s = (f s, Ok tt)) →
  changed ctx action user target perm d =
    ((λ s, if bool_decide (named target s) then f s else s)
       <$> servers (with_entry target d), Ok tt).
Proof.
  intros Hname Hupd. unfold changed.
  destruct (names_of_total _ (with_entry_names target d Hname)) as (names & _ & HF).
  rewrite <- (selected_names target _ names HF).
  rewrite (update_selected_ok _ _ _ target _ names HF).
  - f_equal. apply list_fmap_ext. intros i s Hs%list_elem_of_lookup_2.
    case_bool_decide as Hnamed; [|done]. by rewrite Hupd.
  - intros s Hs Hnamed. by rewrite Hupd.
Qed.

Lemma with_key_servers target perm (d : document) :
  servers (with_key target perm d) =
    (λ s, if bool_decide (named target s)
          then (if bool_decide (s !! perm = None) then <[perm := VList []]> s else s)
          else s) <$> servers d.
Proof.
  unfold with_key. simpl. apply list_fmap_ext. intros i s _.
  repeat case_bool_decide; first [done | tauto].
Qed.

Lemma update_entry_other action tu perm (s : gmap string value) :
  action ≠ "grant" → action ≠ "revoke" →
  update_entry action tu perm s =
    (if bool_decide (s !! perm = None) then <[perm := VList []]> s else s, Ok tt).
Proof.
  intros Hgrant Hrevoke. unfold update_entry.
  rewrite (bool_decide_eq_false_2 (action = "grant")) by done.
  rewrite (bool_decide_eq_false_2 (action = "revoke")) by done.
  by destruct (s !! perm) as [users|].
Qed.

(** X4: an action word other than "grant" and "revoke" is not refused.
    The command creates the entry and the empty action key where they
    are missing, changes nothing else, writes the file, logs its INFO
    line and ends as a grant or a revoke does: with the receipt sent, or
    with the exception of a requester who cannot be told. *)
Theorem permissions_takes_any_action ctx action user target perm w (d : document) :
  json_permissions w = Some d →
  author_id ctx ∈ admins d →
  (∀ s, s ∈ servers d → is_Some (s !! "name")) →
  action ≠ "grant" → action ≠ "revoke" →
  writable (permissions_file w) →
  let after := permissions ctx action user target perm w in
  let d' := with_key target perm (with_entry target d) in
  after.2 = told ctx action user target perm
  ∧ json_permissions after.1 = Some d'
  ∧ permissions_file after.1 = Present (Json d')
  ∧ ∃ line, category line = "INFO" ∧ logfile after.1 = logfile w ++ [line].
Proof.
  intros Hd Hadm Hname Hgrant Hrevoke Hfile after d'.
  destruct (permissions_cases ctx action user target perm w d Hd Hadm Hname)
    as (Hdoc & _ & _ & Hdone).
  fold after in Hdoc, Hdone.
  rewrite (changed_map ctx action user target perm d
             (λ s, if bool_decide (s !! perm = None) then <[perm := VList []]> s else s)
             Hname) in Hdoc, Hdone
    by (intros; by apply update_entry_other).
  simpl in Hdoc, Hdone.
  assert (Heq : {| admins := admins d;
                   servers := (λ s, if bool_decide (named target s)
                                    then (if bool_decide (s !! perm = None)
                                          then <[perm := VList []]> s else s)
                                    else s) <$> servers (with_entry target d) |} = d').
  { unfold d'. rewrite <- with_key_servers. unfold with_key. simpl.
    by rewrite with_entry_admins. }
  rewrite Heq in Hdoc, Hdone.
  destruct (Hdone eq_refl Hfile) as (Hres & Hsaved & Hlog & _).
  by repeat split.
Qed.

Lemma permissions_takes_any_action_witness :
  let after := permissions (user_ctx "permissions" "1") "Grant" "9" "alpha" "status" w1 in
  after.2 = Ok tt ∧ json_permissions after.1 = Some doc1.
Proof.
  assert (Hadm : author_id (user_ctx "permissions" "1") ∈ admins doc1)
    by (simpl; constructor).
  assert (Hname : ∀ s, s ∈ servers doc1 → is_Some (s !! "name")).
  { intros s Hs. simpl in Hs.
    apply elem_of_cons in Hs as [->|Hs]; [by eexists|].
    apply list_elem_of_singleton in Hs as ->. by eexists. }
  destruct (permissions_takes_any_action (user_ctx "permissions" "1") "Grant" "9"
              "alpha" "status" w1 doc1 eq_refl Hadm Hname
              ltac:(discriminate) ltac:(discriminate) I) as (Hres & Hdoc & _).
  split; [exact Hres|]. rewrite Hdoc. by vm_compute.
Defined.

(** ** X5: the key "name" is not an action key *)

Lemma update_selected_name tu target :
  py_in tu (VStr target) = false →
  ∀ l : list (gmap string value),
    Exists (named target) l →
    update_selected "grant" tu "name" (selected target l) l = (l, Raise AttributeError).
Proof.
  intros Hin l. induction l as [|s l IH]; intros Hex; [by apply Exists_nil in Hex|].
  unfold selected. rewrite fmap_cons. fold (selected target l). simpl.
  destruct (decide (named target s)) as [Hnamed|Hnot].
  - rewrite bool_decide_eq_true_2 by done.
    unfold update_entry. rewrite Hnamed, Hin. by simpl.
  - rewrite bool_decide_eq_false_2 by done.
    apply Exists_cons in Hex as [?|Hex]; [done|]. by rewrite (IH Hex).
Qed.

(** X5: a grant under the key "name", for an identity that is not part of
    the target's name, raises AttributeError.  The entry of the target is
    in the document by then (appended if it was missing), but the file is
    not written, nothing is logged and nothing is sent. *)
Theorem permissions_grant_on_name_raises ctx user target w (d : document) :
  json_permissions w = Some d →
  author_id ctx ∈ admins d →
  (∀ s, s ∈ servers d → is_Some (s !! "name")) →
  py_in (target_user ctx user) (VStr target) = false →
  let after := permissions ctx "grant" user target "name" w in
  after.2 = Raise AttributeError
  ∧ json_permissions after.1 = Some (with_entry target d)
  ∧ permissions_file after.1 = permissions_file w
  ∧ logfile after.1 = logfile w
  ∧ outbox after.1 = outbox w.
Proof.
  intros Hd Hadm Hname Hin after.
  destruct (permissions_cases ctx "grant" user target "name" w d Hd Hadm Hname)
    as (Hdoc & Hraise & _).
  fold after in Hdoc, Hraise. unfold changed in Hdoc, Hraise.
  rewrite (update_selected_name _ target Hin _ (with_entry_has target d)) in Hdoc, Hraise.
  simpl in Hdoc, Hraise. destruct (Hraise _ eq_refl) as (Hres & Hsame).
  split; [exact Hres|]. split; [|exact Hsame].
  rewrite Hdoc. f_equal. rewrite <- (with_entry_admins target d).
  by destruct (with_entry target d).
Qed.

Lemma permissions_grant_on_name_raises_witness :
  let after := permissions (user_ctx "permissions" "1") "grant" "9" "delta" "name" w1 in
  after.2 = Raise AttributeError
  ∧ json_permissions after.1 = Some (with_entry "delta" doc1)
  ∧ permissions_file after.1 = Absent.
Proof.
  assert (Hadm : author_id (user_ctx "permissions" "1") ∈ admins doc1)
    by (simpl; constructor).
  assert (Hname : ∀ s, s ∈ servers doc1 → is_Some (s !! "name")).
  { intros s Hs. simpl in Hs.
    apply elem_of_cons in Hs as [->|Hs]; [by eexists|].
    apply list_elem_of_singleton in Hs as ->. by eexists. }
  destruct (permissions_grant_on_name_raises (user_ctx "permissions" "1") "9" "delta"
              w1 doc1 eq_refl Hadm Hname eq_refl) as (Hres & Hdoc & Hfile & _).
  by repeat split.
Defined.

(** ** X6, X7: revoke *)

Lemma filter_absent (tu : string) (l : list string) :
  tu ∉ l → filter (λ p, p ≠ tu) l = l.
Proof.
  induction l as [|x l IH]; intros Hout; [done|].
  apply not_elem_of_cons in Hout as [Hne Hout].
  rewrite filter_cons_True by congruence. by rewrite IH.
Qed.

Lemma filter_removes (tu : string) (l : list string) :
  tu ∉ filter (λ p, p ≠ tu) l.
Proof. intros [Hne _]%list_elem_of_filter. by apply Hne. Qed.

(** The body of the loop for a revoke, on an entry whose value under the
    key, if any, is a list. *)
Lemma update_entry_revoke tu perm (s : gmap string value) :
  (∀ v, s !! perm = Some v → ∃ l, v = VList l) →
  update_entry "revoke" tu perm s =
    (<[perm := VList (filter (λ p, p ≠ tu) (ids perm s))]> s, Ok tt).
Proof.
  intros Htyped. unfold update_entry, ids.
  rewrite (bool_decide_eq_false_2 ("revoke" = "grant")) by done.
  rewrite (bool_decide_eq_true_2 ("revoke" = "revoke")) by done.
  destruct (s !! perm) as [v|] eqn:Hperm; simpl.
  - destruct (Htyped v eq_refl) as [l ->]. simpl.
    case_bool_decide as Hin; [done|].
    by rewrite filter_absent, insert_id.
  - done.
Qed.

(** X6: a revoke by an administrator, where the entries of the target
    hold a list under the action key: afterwards no entry of the target
    holds the identity under that key, and each holds the ids it held
    before, the identity taken out, in their order. *)
Theorem permissions_revoke_removes ctx user target perm w (d : document) :
  json_permissions w = Some d →
  author_id ctx ∈ admins d →
  (∀ s, s ∈ servers d → is_Some (s !! "name")) →
  holds_lists target perm d →
  perm ≠ "name" →
  writable (permissions_file w) →
  let tu := target_user ctx user in
  let after := permissions ctx "revoke" user target perm w in
  ∃ d' : document, after.2 = told ctx "revoke" user target perm
    ∧ json_permissions after.1 = Some d'
    ∧ permissions_file after.1 = Present (Json d')
    ∧ (∀ s', s' ∈ servers d' → named target s' →
         ∃ l, s' !! perm = Some (VList l) ∧ tu ∉ l)
    ∧ (∀ i s, servers d !! i = Some s → named target s →
         ∃ s', servers d' !! i = Some s'
           ∧ s' !! perm = Some (VList (filter (λ p, p ≠ tu) (ids perm s)))).
Proof.
  intros Hd Hadm Hname Hlists Hperm Hfile tu after.
  set (revoke := λ s : gmap string value,
         <[perm := VList (filter (λ p, p ≠ tu) (ids perm s))]> s).
  assert (Htyped : ∀ s, s ∈ servers (with_entry target d) → named target s →
            ∀ v, s !! perm = Some v → ∃ l, v = VList l).
  { intros s [Hs| ->]%with_entry_elem Hnamed v Hv; [by apply (Hlists s)|].
    rewrite (default_entry_lists target perm v Hperm Hv). by eexists. }
  destruct (permissions_cases ctx "revoke" user target perm w d Hd Hadm Hname)
    as (Hdoc & _ & _ & Hdone).
  fold after in Hdoc, Hdone.
  rewrite (changed_map ctx "revoke" user target perm d revoke Hname) in Hdoc, Hdone
    by (intros s Hs Hnamed; apply update_entry_revoke; by apply Htyped).
  simpl in Hdoc, Hdone. destruct (Hdone eq_refl Hfile) as (Hres & Hsaved & _).
  eexists. split; [exact Hres|]. split; [exact Hdoc|]. split; [exact Hsaved|].
  simpl. split.
  - intros s' (s & -> & Hs)%list_elem_of_fmap Hnamed.
    case_bool_decide as Hn.
    + unfold revoke. rewrite lookup_insert_eq. eexists. split; [done|].
      apply filter_removes.
    + done.
  - intros i s Hi Hnamed. apply (with_entry_lookup target) in Hi.
    rewrite list_lookup_fmap, Hi. simpl. rewrite bool_decide_eq_true_2 by done.
    eexists. split; [done|]. unfold revoke. by rewrite lookup_insert_eq.
Qed.

Lemma permissions_revoke_removes_witness :
  let after := permissions (user_ctx "permissions" "1") "revoke" "7" "alpha" "status" w1 in
  ∃ (d' : document) s', after.2 = Ok tt ∧ json_permissions after.1 = Some d'
    ∧ servers d' !! 0%nat = Some s' ∧ s' !! "status" = Some (VList []).
Proof.
  assert (Hadm : author_id (user_ctx "permissions" "1") ∈ admins doc1)
    by (simpl; constructor).
  assert (Hcases : ∀ s, s ∈ servers doc1 →
            s = <["restart" := VList ["7"]]>
                  (<["status" := VList ["7"]]> (default_entry "alpha"))
            ∨ s = default_entry "beta").
  { intros s Hs. simpl in Hs.
    apply elem_of_cons in Hs as [->|Hs]; [by left|].
    apply list_elem_of_singleton in Hs as ->. by right. }
  assert (Hname : ∀ s, s ∈ servers doc1 → is_Some (s !! "name")).
  { intros s Hs. destruct (Hcases s Hs) as [-> | ->]; by eexists. }
  assert (Hlists : holds_lists "alpha" "status" doc1).
  { intros s v Hs Hnamed Hv. destruct (Hcases s Hs) as [-> | ->].
    - vm_compute in Hv. injection Hv as <-. by eexists.
    - vm_compute in Hnamed. discriminate Hnamed. }
  destruct (permissions_revoke_removes (user_ctx "permissions" "1") "7" "alpha" "status"
              w1 doc1 eq_refl Hadm Hname Hlists ltac:(discriminate) I)
    as (d' & Hres & Hdoc & _ & _ & Hkept).
  destruct (Hkept 0%nat _ eq_refl) as (s' & Hs' & Hids); [by vm_compute|].
  by exists d', s'.
Defined.

(** The body of the loop for a grant, on an entry that holds a list
    without the identity. *)
Lemma update_entry_grant_new tu perm (s : gmap string value) l :
  s !! perm = Some (VList l) → tu ∉ l →
  update_entry "grant" tu perm s = (<[perm := VList (l ++ [tu])]> s, Ok tt).
Proof.
  intros Hperm Hout. unfold update_entry. rewrite Hperm. simpl.
  by rewrite (bool_decide_eq_false_2 (tu ∈ l)).
Qed.

Lemma filter_appended (tu : string) (l : list string) :
  tu ∉ l → filter (λ p, p ≠ tu) (l ++ [tu]) = l.
Proof.
  intros Hout. rewrite filter_app, filter_absent by done.
  rewrite filter_cons_False by (intros Hne; by apply Hne).
  by rewrite filter_nil, app_nil_r.
Qed.

(** X7: a grant followed by the revoke of the same identity gives the
    document back, where the target has an entry and its entries hold a
    list without the identity under the action key. *)
Theorem permissions_grant_then_revoke ctx user target perm w (d : document) :
  json_permissions w = Some d →
  author_id ctx ∈ admins d →
  (∀ s, s ∈ servers d → is_Some (s !! "name")) →
  Exists (named target) (servers d) →
  (∀ s, s ∈ servers d → named target s →
        ∃ l, s !! perm = Some (VList l) ∧ target_user ctx user ∉ l) →
  perm ≠ "name" →
  writable (permissions_file w) →
  ∃ w1 w2,
    permissions ctx "grant" user target perm w = (w1, told ctx "grant" user target perm)
    ∧ permissions ctx "revoke" user target perm w1 =
        (w2, told ctx "revoke" user target perm)
    ∧ json_permissions w1 ≠ Some d
    ∧ json_permissions w2 = Some d
    ∧ permissions_file w2 = Present (Json d).
Proof.
  intros Hd Hadm Hname Hex Hheld Hperm Hfile.
  set (tu := target_user ctx user) in *.
  set (grant := λ s : gmap string value, <[perm := VList (ids perm s ++ [tu])]> s).
  destruct (permissions_cases ctx "grant" user target perm w d Hd Hadm Hname)
    as (Hdoc1 & _ & _ & Hdone1).
  assert (Hchanged1 := changed_map ctx "grant" user target perm d grant Hname).
  rewrite Hchanged1 in Hdoc1, Hdone1; clear Hchanged1.
  2, 3: rewrite with_entry_present by done; intros s Hs Hnamed;
        destruct (Hheld s Hs Hnamed) as (l & Hl & Hout);
        unfold grant, ids; rewrite Hl; by apply update_entry_grant_new.
  rewrite with_entry_present in Hdoc1, Hdone1 by done. simpl in Hdoc1, Hdone1.
  destruct (Hdone1 eq_refl Hfile) as (Hres1 & Hsaved1 & _).
  destruct (permissions ctx "grant" user target perm w) as [w1 r1] eqn:Hrun1.
  simpl in Hdoc1, Hres1, Hsaved1. subst r1.
  set (d1 := {| admins := admins d;
                servers := (λ s, if bool_decide (named target s) then grant s else s)
                           <$> servers d |}) in *.
  assert (Hnamed_grant : ∀ s, named target (grant s) ↔ named target s).
  { intros s. unfold named, grant. by rewrite lookup_insert_ne. }
  assert (Hname1 : ∀ s, s ∈ servers d1 → is_Some (s !! "name")).
  { intros s1 (s & -> & Hs)%list_elem_of_fmap. case_bool_decide as Hn; [|by apply Hname].
    apply Hnamed_grant in Hn. by eexists. }
  assert (Hex1 : Exists (named target) (servers d1)).
  { apply Exists_exists. apply Exists_exists in Hex as (s & Hs & Hnamed).
    exists (grant s). split; [|by apply Hnamed_grant].
    apply list_elem_of_fmap. exists s. by rewrite bool_decide_eq_true_2. }
  destruct (permissions_cases ctx "revoke" user target perm w1 d1 Hdoc1 Hadm Hname1)
    as (Hdoc2 & _ & _ & Hdone2).
  assert (Hchanged2 : changed ctx "revoke" user target perm d1 =
            ((λ s, if bool_decide (named target s)
                   then <[perm := VList (filter (λ p, p ≠ tu) (ids perm s))]> s else s)
               <$> servers (with_entry target d1), Ok tt)).
  { apply changed_map; [exact Hname1|].
    rewrite with_entry_present by done.
    intros s1 (s & -> & Hs)%list_elem_of_fmap Hnamed1.
    apply update_entry_revoke. intros v Hv.
    case_bool_decide as Hn.
    - unfold grant in Hv. rewrite lookup_insert_eq in Hv. injection Hv as <-. by eexists.
    - destruct (Hheld s Hs Hnamed1) as (l & Hl & _). exists l. congruence. }
  rewrite Hchanged2 in Hdoc2, Hdone2; clear Hchanged2.
  rewrite with_entry_present in Hdoc2, Hdone2 by done. simpl in Hdoc2, Hdone2.
  destruct (Hdone2 eq_refl) as (Hres2 & Hsaved2 & _); [by rewrite Hsaved1|].
  destruct (permissions ctx "revoke" user target perm w1) as [w2 r2] eqn:Hrun2.
  simpl in Hdoc2, Hres2, Hsaved2. subst r2.
  assert (Hback : {| admins := admins d1;
                     servers := (λ s, if bool_decide (named target s)
                                      then <[perm := VList (filter (λ p, p ≠ tu) (ids perm s))]> s
                                      else s) <$> servers d1 |} = d).
  { clear Hdoc2 Hsaved2 Hdone2 Hrun2 Hdoc1 Hsaved1 Hdone1 Hname1 Hex1.
    subst d1. destruct d as [adm srv]. simpl in *. f_equal.
    rewrite <- list_fmap_compose. rewrite <- (list_fmap_id srv) at 2.
    apply list_fmap_ext. intros i s Hs%list_elem_of_lookup_2. simpl.
    destruct (decide (named target s)) as [Hnamed|Hnot].
    - rewrite (bool_decide_eq_true_2 (named target s)) by done.
      rewrite bool_decide_eq_true_2 by (by apply Hnamed_grant).
      destruct (Hheld s Hs Hnamed) as (l & Hl & Hout).
      unfold grant, ids. rewrite lookup_insert_eq, Hl, insert_insert_eq.
      rewrite filter_appended by done. by apply insert_id.
    - rewrite (bool_decide_eq_false_2 (named target s)) by done.
      by rewrite bool_decide_eq_false_2. }
  assert (Hd2 : json_permissions w2 = Some d)
    by (rewrite Hdoc2; exact (f_equal (λ x : document, Some (Document x)) Hback)).
  assert (Hf2 : permissions_file w2 = Present (Json d))
    by (rewrite Hsaved2; exact (f_equal (λ x : document, Present (Json x)) Hback)).
  exists w1, w2. repeat split; try done.
  rewrite Hdoc1. intros [= Heq].
  apply Exists_exists in Hex as (s & Hs & Hnamed).
  destruct (Hheld s Hs Hnamed) as (l & Hl & Hout).
  apply list_elem_of_lookup_1 in Hs as [i Hi].
  assert (Hi1 : servers d1 !! i = Some (grant s)).
  { unfold d1. simpl. rewrite list_lookup_fmap, Hi. simpl.
    by rewrite bool_decide_eq_true_2. }
  rewrite Heq, Hi in Hi1. injection Hi1 as Hs1.
  assert (Hl1 : grant s !! perm = Some (VList (l ++ [tu]))).
  { unfold grant, ids. by rewrite lookup_insert_eq, Hl. }
  rewrite <- Hs1, Hl in Hl1. injection Hl1 as Hl1.
  apply (f_equal length) in Hl1. rewrite length_app in Hl1. simpl in Hl1. lia.
Qed.

Lemma permissions_grant_then_revoke_witness :
  ∃ w2 w3,
    permissions (user_ctx "permissions" "1") "grant" "9" "alpha" "status" w1 = (w2, Ok tt)
    ∧ permissions (user_ctx "permissions" "1") "revoke" "9" "alpha" "status" w2 = (w3, Ok tt)
    ∧ json_permissions w3 = Some doc1.
Proof.
  assert (Hadm : author_id (user_ctx "permissions" "1") ∈ admins doc1)
    by (simpl; constructor).
  assert (Hcases : ∀ s, s ∈ servers doc1 →
            s = <["restart" := VList ["7"]]>
                  (<["status" := VList ["7"]]> (default_entry "alpha"))
            ∨ s = default_entry "beta").
  { intros s Hs. simpl in Hs.
    apply elem_of_cons in Hs as [->|Hs]; [by left|].
    apply list_elem_of_singleton in Hs as ->. by right. }
  assert (Hname : ∀ s, s ∈ servers doc1 → is_Some (s !! "name")).
  { intros s Hs. destruct (Hcases s Hs) as [-> | ->]; by eexists. }
  assert (Hex : Exists (named "alpha") (servers doc1)).
  { apply Exists_cons. left. by vm_compute. }
  assert (Hheld : ∀ s, s ∈ servers doc1 → named "alpha" s →
            ∃ l, s !! "status" = Some (VList l)
                 ∧ target_user (user_ctx "permissions" "1") "9" ∉ l).
  { intros s Hs Hnamed. destruct (Hcases s Hs) as [-> | ->].
    - exists ["7"]. split; [by vm_compute|]. simpl.
      intros Hin. apply list_elem_of_singleton in Hin. discriminate Hin.
    - vm_compute in Hnamed. discriminate Hnamed. }
  destruct (permissions_grant_then_revoke (user_ctx "permissions" "1") "9" "alpha" "status"
              w1 doc1 eq_refl Hadm Hname Hex Hheld ltac:(discriminate) I)
    as (w2 & w3 & Hrun1 & Hrun2 & _ & Hdoc & _).
  by exists w2, w3.
Defined.

(** ** X8, X9: the list commands on a requested list *)

Lemma same_setting_refl w : same_setting w w.
Proof. done. Qed.

Lemma same_setting_perm_check ctx w w' :
  same_setting w w' → (perm_check ctx w').2 = (perm_check ctx w).2.
Proof.
  intros (Hjp & _ & Hdc & _). rewrite !perm_check_run. simpl. by rewrite Hjp, Hdc.
Qed.

Lemma calls_for_one calls allowed dc server :
  calls_for calls allowed dc [server] = from_option calls [] (reached allowed dc server).
Proof. unfold calls_for. simpl. apply app_nil_r. Qed.

Lemma calls_for_cons calls allowed dc server servers :
  calls_for calls allowed dc (server :: servers) =
    calls_for calls allowed dc [server] ++ calls_for calls allowed dc servers.
Proof. unfold calls_for. simpl. by rewrite app_nil_r. Qed.


(** A step on a target the requester may not reach. *)
Lemma denied_step_runs ctx (step : embed → string → M embed) text calls e server w allowed :
  VStr server ∉ allowed →
  step e server w =
    ((log_unauthorized ctx [server] w).1,
     Ok (add_field e server Not_Found_Invalid_Name true)) →
  (step e server w).2 =
    Ok {| embed_title := embed_title e;
          fields := fields e ++ [outcome_field text allowed (docker_client w) server] |}
  ∧ docker_calls (step e server w).1 =
      docker_calls w ++ calls_for calls allowed (docker_client w) [server]
  ∧ logfile (step e server w).1 =
      logfile w ++ (denial ctx <$> filter (λ s, VStr s ∉ allowed) [server])
  ∧ outbox (step e server w).1 = outbox w
  ∧ same_setting w (step e server w).1.
Proof.
  intros Hout ->. rewrite calls_for_one. unfold outcome_field, reached.
  rewrite !(bool_decide_eq_false_2 _ Hout).
  rewrite filter_cons_True, filter_nil by done. simpl.
  rewrite ?app_nil_r. by repeat split.
Qed.

(** The step of [restart], [kill] and [start], for an operation [op]
    that is reported with [text] when it returns. *)
Lemma act_on_runs ctx act (op : container → result unit) call (text : container → string) :
  (∀ c w, act c w =
     ((call_docker (call c) (op c) w).1,
      match op c with Ok _ => Ok (text c) | Raise ex => Raise ex end)) →
  step_runs ctx (act_on ctx act) op (λ c, [call c]) (λ c, reported (op c) (text c)).
Proof.
  intros Hact e server w allowed Hallowed Hanswers Hsettles.
  destruct (decide (VStr server ∈ allowed)) as [Hin|Hout].
  - rewrite (act_on_run ctx _ e server w allowed Hallowed Hin).
    rewrite calls_for_one. unfold outcome_field.
    rewrite filter_cons_False, filter_nil by (by intros []).
    specialize (Hsettles server). unfold reached in *.
    rewrite !(bool_decide_eq_true_2 _ Hin) in *.
    destruct (Hanswers Hin) as [Hget|[c Hget] ]; rewrite Hget in *; simpl.
    + rewrite ?app_nil_r. by repeat split.
    + rewrite Hact.
      destruct (Hsettles c (list_elem_of_here _ _) eq_refl) as [Hop|[ [] Hop] ];
        rewrite Hop; simpl; rewrite ?app_nil_r; by repeat split.
  - apply denied_step_runs; [done|]. by apply (act_on_denied ctx act e server w allowed).
Qed.


Lemma settles_on_cons op allowed dc server servers :
  settles_on op allowed dc (server :: servers) →
  settles_on op allowed dc [server] ∧ settles_on op allowed dc servers.
Proof.
  intros Hsettles. split; intros s c Hs; apply Hsettles.
  - apply list_elem_of_singleton in Hs as ->. by left.
  - by right.
Qed.

(** The loop of a list command over a requested list. *)
Lemma loop_runs ctx step op calls text :
  step_runs ctx step op calls text →
  ∀ servers e w allowed,
    (perm_check ctx w).2 = Ok allowed →
    (∀ s, s ∈ servers → VStr s ∈ allowed → answers (docker_client w) s) →
    settles_on op allowed (docker_client w) servers →
    (for_each step servers e w).2 =
      Ok {| embed_title := embed_title e;
            fields := fields e ++ (outcome_field text allowed (docker_client w) <$> servers) |}
    ∧ docker_calls (for_each step servers e w).1 =
        docker_calls w ++ calls_for calls allowed (docker_client w) servers
    ∧ logfile (for_each step servers e w).1 =
        logfile w ++ (denial ctx <$> filter (λ s, VStr s ∉ allowed) servers)
    ∧ outbox (for_each step servers e w).1 = outbox w
    ∧ same_setting w (for_each step servers e w).1.
Proof.
  intros Hstep servers. induction servers as [|server rest IH];
    intros e w allowed Hallowed Hanswers Hsettles.
  - simpl. rewrite !app_nil_r. destruct e. by repeat split.
  - rewrite (calls_for_cons calls allowed (docker_client w) server rest).
    apply settles_on_cons in Hsettles as [Hsettles1 Hsettles].
    cbn [for_each]. rewrite bind_run.
    destruct (Hstep e server w allowed Hallowed) as (Hres & Hcalls & Hlog & Hbox & Hsame);
      [apply Hanswers; by left|done|].
    destruct (step e server w) as [w1 r1]. simpl in Hres, Hcalls, Hlog, Hbox, Hsame.
    subst r1.
    assert (Hdc : docker_client w1 = docker_client w) by apply Hsame.
    destruct (IH {| embed_title := embed_title e;
                    fields := fields e ++ [outcome_field text allowed (docker_client w) server] |}
                 w1 allowed) as (Hres' & Hcalls' & Hlog' & Hbox' & Hsame').
    { by rewrite (same_setting_perm_check ctx w w1). }
    { intros s Hs Hin. rewrite Hdc. apply Hanswers; [by right|done]. }
    { by rewrite Hdc. }
    rewrite Hdc in Hres', Hcalls'. simpl in Hres'.
    split; [by rewrite Hres', <- app_assoc|].
    split; [by rewrite Hcalls', Hcalls, calls_for_one, app_nil_r, <- app_assoc|].
    split.
    { rewrite Hlog', Hlog, <- app_assoc, <- fmap_app. do 2 f_equal.
      by rewrite <- filter_app. }
    split; [by rewrite Hbox'|].
    destruct Hsame as (? & ? & ? & ?), Hsame' as (? & ? & ? & ?).
    repeat split; congruence.
Qed.

Lemma forbidden_denials ctx (l : list string) :
  forbidden (denial ctx <$> l) = denial ctx <$> l.
Proof.
  induction l as [|s l IH]; [done|].
  rewrite fmap_cons.
  change (forbidden ([denial ctx s] ++ (denial ctx <$> l)) =
          [denial ctx s] ++ (denial ctx <$> l)).
  by rewrite forbidden_app, IH.
Qed.

(** A command that logs its call, runs the loop and sends the report. *)
Lemma report_runs ctx step op calls text line report servers w allowed :
  step_runs ctx step op calls text →
  (perm_check ctx w).2 = Ok allowed →
  (∀ s, s ∈ servers → VStr s ∈ allowed → answers (docker_client w) s) →
  settles_on op allowed (docker_client w) servers →
  ∀ command : context → list string → M unit,
    command ctx servers w =
      (log_info line ≫= λ _,
       for_each step servers {| embed_title := report; fields := [] |} ≫= λ e,
       send (Embed_message e)) w →
    runs_over command report calls text ctx servers w allowed.
Proof.
  intros Hstep Hallowed Hanswers Hsettles command Hcommand.
  unfold runs_over. rewrite Hcommand. unfold log_info. rewrite bind_run.
  destruct (log_run line "INFO" w)
    as (w' & -> & Hlog & Hjp & Hdc & Hcalls & Hbox & Hacc & Hfile).
  rewrite bind_run.
  destruct (loop_runs ctx step op calls text Hstep servers
              {| embed_title := report; fields := [] |} w' allowed)
    as (Hres & Hcalls' & Hlog' & Hbox' & (_ & _ & _ & Hacc')).
  { rewrite !perm_check_run in *. simpl in *. by rewrite Hjp, Hdc. }
  { intros s Hs Hin. rewrite Hdc. by apply Hanswers. }
  { by rewrite Hdc. }
  destruct (for_each step servers _ w') as [w2 r2].
  simpl in Hres, Hcalls', Hlog', Hbox', Hacc'. subst r2.
  rewrite Hdc in *. unfold send. rewrite Hacc', Hacc.
  destruct (accepts w _); simpl;
    rewrite Hcalls', Hcalls, Hlog', Hlog, ?Hbox', ?Hbox, !forbidden_app, forbidden_info,
      app_nil_r, forbidden_denials, ?app_nil_r; by repeat split.
Qed.

Lemma restart_runs ctx servers w allowed :
  (perm_check ctx w).2 = Ok allowed →
  (∀ s, s ∈ servers → VStr s ∈ allowed → answers (docker_client w) s) →
  settles_on container_restart allowed (docker_client w) servers →
  runs_over restart "Restart Results" (λ c, [Restart (container_name c)])
    (λ c, reported (container_restart c) "Restart Sent") ctx servers w allowed.
Proof.
  intros Hallowed Hanswers Hsettles.
  by eapply (report_runs ctx _ _ _ _ _ _ servers w allowed
               (act_on_runs ctx do_restart container_restart _ _ do_restart_run)).
Qed.

Lemma kill_runs ctx servers w allowed :
  (perm_check ctx w).2 = Ok allowed →
  (∀ s, s ∈ servers → VStr s ∈ allowed → answers (docker_client w) s) →
  settles_on container_kill allowed (docker_client w) servers →
  runs_over kill "SIGKILL Results" (λ c, [Kill (container_name c)])
    (λ c, reported (container_kill c) ("SIGKILL Sent - status is " +:+ container_status c))
    ctx servers w allowed.
Proof.
  intros Hallowed Hanswers Hsettles.
  by eapply (report_runs ctx _ _ _ _ _ _ servers w allowed
               (act_on_runs ctx do_kill container_kill _ _ do_kill_run)).
Qed.

Lemma start_runs ctx servers w allowed :
  (perm_check ctx w).2 = Ok allowed →
  (∀ s, s ∈ servers → VStr s ∈ allowed → answers (docker_client w) s) →
  settles_on container_start allowed (docker_client w) servers →
  runs_over start "Start Results" (λ c, [Start (container_name c)])
    (λ c, reported (container_start c) (container_status c)) ctx servers w allowed.
Proof.
  intros Hallowed Hanswers Hsettles.
  by eapply (report_runs ctx _ _ _ _ _ _ servers w allowed
               (act_on_runs ctx do_start container_start _ _ do_start_run)).
Qed.



(** ** X9: the summary report of [status] *)




(** ** X10: a refusal does not depend on the backend *)

Lemma runs_over_denied command report calls text ctx servers w allowed :
  runs_over command report calls text ctx servers w allowed →
  (∀ s, s ∈ servers → VStr s ∉ allowed) →
  docker_calls (command ctx servers w).1 = docker_calls w
  ∧ outbox (command ctx servers w).1 =
      outbox w ++ (if accepts w (refusal report servers)
                   then [Sent (refusal report servers)] else [])
  ∧ (command ctx servers w).2 =
      (if accepts w (refusal report servers) then Ok tt else Raise HTTPException).
Proof.
  intros (Hcalls & _ & Hbox & Hres) Hdenied.
  assert (Hfields : outcome_field text allowed (docker_client w) <$> servers =
            (λ server, {| field_name := server; field_value := Not_Found_Invalid_Name;
                          inline := true |}) <$> servers).
  { apply list_fmap_ext. intros i s Hs%list_elem_of_lookup_2.
    unfold outcome_field, reached. by rewrite bool_decide_eq_false_2 by by apply Hdenied. }
  assert (Hnone : calls_for calls allowed (docker_client w) servers = []).
  { unfold calls_for. clear Hcalls Hbox Hres Hfields.
    induction servers as [|s servers IH]; [done|]. simpl.
    unfold reached at 1. rewrite bool_decide_eq_false_2 by (apply Hdenied; by left).
    simpl. apply IH. intros s' Hs'. apply Hdenied. by right. }
  rewrite Hfields in Hbox, Hres. rewrite Hnone, app_nil_r in Hcalls.
  by repeat split.
Qed.

(** X10: a requester who is not an administrator and may reach none of
    the requested targets gets the same answer from [restart], [kill] and
    [start] whatever the backend holds: the report in which every target
    is "Not Found/Invalid Name", and no backend call. *)
Theorem refusal_hides_the_backend ctx servers w (d : document) allowed dc :
  json_permissions w = Some d →
  author_id ctx ∉ admins d →
  (perm_check ctx w).2 = Ok allowed →
  (∀ s, s ∈ servers → VStr s ∉ allowed) →
  hides_backend restart "Restart Results" ctx servers w dc
  ∧ hides_backend kill "SIGKILL Results" ctx servers w dc
  ∧ hides_backend start "Start Results" ctx servers w dc.
Proof.
  intros Hd Hadm Hallowed Hdenied.
  assert (Hallowed' : (perm_check ctx (with_backend dc w)).2 = Ok allowed).
  { rewrite !perm_check_run in *. simpl in *. unfold allowed_of in *.
    rewrite Hd in *. by rewrite bool_decide_eq_false_2 in * by done. }
  assert (Hanswers : ∀ s, s ∈ servers → VStr s ∈ allowed →
                          answers (docker_client (with_backend dc w)) s).
  { intros s Hs Hin. by destruct (Hdenied s Hs). }
  assert (Hsettles : ∀ op, settles_on op allowed (docker_client (with_backend dc w)) servers).
  { intros op s c Hs Hc. unfold reached in Hc.
    by rewrite bool_decide_eq_false_2 in Hc by by apply Hdenied. }
  split; [|split].
  - exact (runs_over_denied _ _ _ _ _ _ _ _
             (restart_runs ctx servers _ allowed Hallowed' Hanswers (Hsettles _)) Hdenied).
  - exact (runs_over_denied _ _ _ _ _ _ _ _
             (kill_runs ctx servers _ allowed Hallowed' Hanswers (Hsettles _)) Hdenied).
  - exact (runs_over_denied _ _ _ _ _ _ _ _
             (start_runs ctx servers _ allowed Hallowed' Hanswers (Hsettles _)) Hdenied).
Qed.

Lemma refusal_hides_the_backend_witness :
  let ctx := user_ctx "kill" "7" in
  outbox (kill ctx ["alpha"; "omega"] (with_backend (docker_of []) w1)).1 =
    [Sent (refusal "SIGKILL Results" ["alpha"; "omega"])]
  ∧ outbox (kill ctx ["alpha"; "omega"] (with_backend (docker_client w1) w1)).1 =
      [Sent (refusal "SIGKILL Results" ["alpha"; "omega"])].
Proof.
  intros ctx.
  assert (Hadm : author_id ctx ∉ admins doc1).
  { simpl. intros Hin. apply list_elem_of_singleton in Hin. discriminate Hin. }
  assert (Hdenied : ∀ s, s ∈ ["alpha"; "omega"] → VStr s ∉ []).
  { intros s _. apply not_elem_of_nil. }
  split.
  - destruct (refusal_hides_the_backend ctx ["alpha"; "omega"] w1 doc1 [] (docker_of [])
                eq_refl Hadm eq_refl Hdenied) as (_ & (_ & Hbox & _) & _).
    exact Hbox.
  - destruct (refusal_hides_the_backend ctx ["alpha"; "omega"] w1 doc1 [] (docker_client w1)
                eq_refl Hadm eq_refl Hdenied) as (_ & (_ & Hbox & _) & _).
    exact Hbox.
Defined.

(** ** X20: a backend operation that fails *)





(** ** X11: which backend calls a command can make *)

Lemma calls_only_quiet P {A} (m : M A) :
  (∀ w, docker_calls (m w).1 = docker_calls w) → calls_only P m.
Proof. intros Hm w. exists []. by rewrite app_nil_r, Hm. Qed.

Lemma calls_only_ret P {A} (a : A) : calls_only P (mret a).
Proof. by apply calls_only_quiet. Qed.

Lemma calls_only_lift P {A} (r : result A) : calls_only P (lift r).
Proof. by apply calls_only_quiet. Qed.

Lemma calls_only_raise P {A} e : calls_only P (@raise A e).
Proof. by apply calls_only_quiet. Qed.

Lemma calls_only_log P text c : calls_only P (log text c).
Proof. by apply calls_only_quiet. Qed.

Lemma calls_only_log_info P text : calls_only P (log_info text).
Proof. by apply calls_only_quiet. Qed.

Lemma calls_only_log_unauthorized P ctx servers : calls_only P (log_unauthorized ctx servers).
Proof. by apply calls_only_quiet. Qed.

Lemma calls_only_emit P o : calls_only P (emit o).
Proof. by apply calls_only_quiet. Qed.

Lemma calls_only_send P m : calls_only P (send m).
Proof. apply calls_only_quiet. intros w. unfold send. by destruct (accepts w m). Qed.

Lemma calls_only_get_docker P : calls_only P get_docker.
Proof. by apply calls_only_quiet. Qed.

Lemma calls_only_get_permissions P : calls_only P get_permissions.
Proof.
  apply calls_only_quiet. intros w. unfold get_permissions.
  by destruct (json_permissions w) as [ [d|e]|].
Qed.

Lemma calls_only_create_dm P ctx : calls_only P (create_dm ctx).
Proof. apply calls_only_quiet. intros w. unfold create_dm. by destruct (dm_opens ctx). Qed.

Lemma calls_only_send_dm P ctx text : calls_only P (send_dm ctx text).
Proof.
  apply calls_only_quiet. intros w. unfold send_dm. by destruct (dm_accepts ctx text).
Qed.

Lemma calls_only_set_json_permissions P d : calls_only P (set_json_permissions d).
Proof. by apply calls_only_quiet. Qed.

Lemma calls_only_set_permissions_file P f : calls_only P (set_permissions_file f).
Proof. by apply calls_only_quiet. Qed.

Lemma calls_only_is_authorized P ctx target : calls_only P (is_authorized ctx target).
Proof. apply calls_only_quiet. intros w. by rewrite is_authorized_run. Qed.

Lemma calls_only_perm_check P ctx : calls_only P (perm_check ctx).
Proof. apply calls_only_quiet. intros w. by rewrite perm_check_run. Qed.

Lemma calls_only_call (P : docker_call → Prop) {A} c (r : result A) :
  P c → calls_only P (call_docker c r).
Proof. intros Hc w. exists [c]. split; [done|]. by constructor. Qed.

Lemma calls_only_exec (P : docker_call → Prop) c command :
  P (Exec (container_name c) command) → calls_only P (exec c command).
Proof. apply calls_only_call. Qed.

Lemma calls_only_add_probes (P : docker_call → Prop) c probes :
  Forall (λ probe, P (Exec (container_name c) probe.1.2)) probes →
  ∀ e, calls_only P (add_probes c probes e).
Proof.
  induction 1 as [|[ [name command] is_inline] rest Hprobe Hrest IH]; intros e w.
  - exists []. by rewrite app_nil_r.
  - rewrite add_probes_cons. destruct (exec_run c command) as [output|ex].
    + destruct (IH (add_field e name output is_inline)
                   (call_docker (Exec (container_name c) command) (@Ok unit tt) w).1)
        as (l & Hl & HP).
      exists (Exec (container_name c) command :: l).
      split; [by rewrite Hl; simpl; rewrite <- app_assoc|]. by constructor.
    + exists [Exec (container_name c) command]. split; [done|]. by constructor.
Qed.

Lemma detail_probes_report c :
  Forall (λ probe, report_call (Exec (container_name c) probe.1.2)) detail_probes.
Proof. repeat constructor; exists (container_name c); simpl; tauto. Qed.

Lemma calls_only_bind P {A B} (m : M A) (k : A → M B) :
  calls_only P m → (∀ a, calls_only P (k a)) → calls_only P (m ≫= k).
Proof.
  intros Hm Hk w. rewrite bind_run. destruct (Hm w) as (l & Hl & HP).
  destruct (m w) as [w' [a|e] ]; simpl in *; [|by exists l].
  destruct (Hk a w') as (l' & Hl' & HP').
  exists (l ++ l'). split; [by rewrite Hl', Hl, app_assoc|]. by apply Forall_app.
Qed.

Lemma calls_only_try P {A} (body handler : M A) exc :
  calls_only P body → calls_only P handler → calls_only P (try_except body exc handler).
Proof.
  intros Hb Hh w. rewrite try_except_run. destruct (Hb w) as (l & Hl & HP).
  destruct (body w) as [w' [a|e] ]; simpl in *; [by exists l|].
  destruct (bool_decide (e = exc)); [|by exists l].
  destruct (Hh w') as (l' & Hl' & HP').
  exists (l ++ l'). split; [by rewrite Hl', Hl, app_assoc|]. by apply Forall_app.
Qed.

Lemma calls_only_for_each P {A S} (body : S → A → M S) l :
  (∀ s x, calls_only P (body s x)) → ∀ s, calls_only P (for_each body l s).
Proof.
  intros Hbody. induction l as [|x r IH]; intros s; cbn [for_each].
  - apply calls_only_ret.
  - apply calls_only_bind; [apply Hbody|apply IH].
Qed.

Create HintDb calls_only.
#[local] Hint Resolve calls_only_ret calls_only_lift calls_only_raise calls_only_log
  calls_only_log_info calls_only_log_unauthorized calls_only_emit calls_only_send
  calls_only_create_dm calls_only_send_dm
  calls_only_get_docker calls_only_get_permissions calls_only_set_json_permissions
  calls_only_set_permissions_file calls_only_is_authorized calls_only_perm_check
  : calls_only.

Ltac calls_only :=
  repeat first
    [ solve [eauto with calls_only]
    | match goal with
      | |- calls_only _ (call_docker _ _) => apply calls_only_call; solve [eauto]
      | |- calls_only _ (exec _ _) => apply calls_only_exec; solve [eauto]
      | |- calls_only _ (add_probes _ _ _) =>
          apply calls_only_add_probes; apply detail_probes_report
      | |- calls_only _ (for_each _ _ _) => apply calls_only_for_each; intros ? ?
      | |- calls_only _ (try_except _ _ _) => apply calls_only_try
      | |- calls_only _ (mbind _ _) => apply calls_only_bind; [|intros ?]
      | |- calls_only _ (if ?b then _ else _) => destruct b
      | |- calls_only _ (let (_, _) := ?x in _) => destruct x
      | |- calls_only _ (match ?x with _ => _ end) => destruct x
      end ].

(** X11: however a command ends, [status] makes no backend call but the
    three read commands of the detailed report, [restart] none but
    restarts, [kill] none but kills, [start] none but starts, [get_logs],
    with the conversion of its argument, none but a [tail] of the log,
    and [cmd], which is switched off, and [permissions] none at all. *)
Theorem backend_call_discipline ctx :
  (∀ servers, calls_only report_call (status ctx servers))
  ∧ (∀ servers, calls_only (λ c, ∃ name, c = Restart name) (restart ctx servers))
  ∧ (∀ servers, calls_only (λ c, ∃ name, c = Kill name) (kill ctx servers))
  ∧ (∀ servers, calls_only (λ c, ∃ name, c = Start name) (start ctx servers))
  ∧ (∀ int_of_str server word,
       calls_only
         (λ c, ∃ name (n : Z), c = Exec name ("tail -n" +:+ pretty n +:+ " logs/latest.log"))
         (invoke_get_logs int_of_str ctx server word))
  ∧ (∀ server command, calls_only (λ _, False) (cmd ctx server command))
  ∧ (∀ action user target perm,
       calls_only (λ _, False) (permissions ctx action user target perm)).
Proof.
  repeat split; intros.
  - unfold status, status_targets. calls_only;
      unfold status_summary, status_detail, deny; calls_only.
  - unfold restart, act_on, do_restart. calls_only.
  - unfold kill, act_on, do_kill. calls_only.
  - unfold start, act_on, do_start. calls_only.
  - unfold invoke_get_logs, get_logs. cbv zeta. calls_only.
  - unfold cmd, bot_command. calls_only.
  - unfold permissions, ensure_entry, apply_change, save_permissions, write_permissions,
      acknowledge. calls_only.
Qed.

(** ** X12, X13: [get_logs] for a target the requester may reach *)

Lemma get_logs_start ctx server numlines w allowed :
  (perm_check ctx w).2 = Ok allowed →
  VStr server ∈ allowed →
  ∃ w', get_logs ctx server numlines w =
          (c ← lift (containers_get (docker_client w) (VStr server));
           result ← exec c ("tail -n" +:+ pretty numlines +:+ " logs/latest.log");
           try_except
             (send (Text_message ("```" +:+ result +:+ "```")))
             HTTPException
             (send (Text_message
                      ("Failed to retrieve log results.  Result length shows to be "
                       +:+ pretty (py_len result)
                       +:+ " - discord's limit is 2000 per message.")))) w'
    ∧ docker_calls w' = docker_calls w ∧ outbox w' = outbox w ∧ accepts w' = accepts w
    ∧ forbidden (logfile w') = forbidden (logfile w).
Proof.
  intros Hallowed Hin. rewrite perm_check_run in Hallowed. simpl in Hallowed.
  unfold get_logs, log_info. rewrite bind_run.
  match goal with |- context [log ?line "INFO" w] =>
    destruct (log_run line "INFO" w)
      as (w' & -> & Hlog & Hjp & Hdc & Hcalls & Hbox & Hacc & _) end.
  exists w'. cbv zeta. unfold parse_numlines, py_int.
  rewrite bind_run, is_authorized_run, Hjp, Hdc, Hallowed.
  rewrite bool_decide_eq_true_2 by exact Hin.
  rewrite (bind_run get_docker). unfold get_docker. rewrite Hdc.
  split; [done|].
  by rewrite Hlog, forbidden_app, forbidden_info, app_nil_r.
Qed.

(** X12: [get_logs] for a target the requester may reach and the backend
    finds runs [tail] in the container with the count as it is given; no
    bound is put on it.  When the command comes back, its whole output is
    sent, and when the transport refuses that message, the notice with the
    number of characters of the output instead.  When the command raises,
    NotFound included, nothing catches the exception: it leaves
    [get_logs], and no message is sent. *)
Theorem get_logs_runs ctx server numlines w allowed c :
  (perm_check ctx w).2 = Ok allowed →
  VStr server ∈ allowed →
  containers_get (docker_client w) (VStr server) = Ok c →
  let log_command := "tail -n" +:+ pretty numlines +:+ " logs/latest.log" in
  let after := get_logs ctx server numlines w in
  docker_calls after.1 = docker_calls w ++ [Exec (container_name c) log_command]
  ∧ (∀ result, exec_run c log_command = Ok result →
       let reply := Text_message ("```" +:+ result +:+ "```") in
       let notice :=
         Text_message ("Failed to retrieve log results.  Result length shows to be "
                       +:+ pretty (py_len result)
                       +:+ " - discord's limit is 2000 per message.") in
       outbox after.1 =
         outbox w ++ (if accepts w reply then [Sent reply]
                      else if accepts w notice then [Sent notice] else [])
       ∧ after.2 = (if accepts w reply then Ok tt
                    else if accepts w notice then Ok tt else Raise HTTPException))
  ∧ (∀ ex, exec_run c log_command = Raise ex →
       after.2 = Raise ex ∧ outbox after.1 = outbox w).
Proof.
  intros Hallowed Hin Hget log_command after.
  destruct (get_logs_start ctx server numlines w allowed Hallowed Hin)
    as (w' & Hrun & Hcalls & Hbox & Hacc & _).
  subst after. rewrite Hrun. clear Hrun.
  rewrite bind_run. unfold lift. rewrite Hget. fold log_command.
  rewrite bind_run. unfold exec, call_docker.
  destruct (exec_run c log_command) as [result|ex]; simpl.
  - unfold try_except, send. simpl. rewrite Hacc.
    destruct (accepts w (Text_message ("```" +:+ result +:+ "```"))) eqn:Hreply; simpl.
    + split; [by rewrite Hcalls|]. split; [|done].
      intros ? [= <-]. by rewrite Hreply, Hbox.
    + match goal with |- context [if accepts w ?notice then emit _ _ else _] =>
        destruct (accepts w notice) eqn:Hnotice end; simpl;
        (split; [by rewrite Hcalls|]; split; [|done]);
        intros ? [= <-]; by rewrite Hreply, Hnotice, Hbox, ?app_nil_r.
  - split; [by rewrite Hcalls|]. split; [done|].
    intros ? [= <-]. by rewrite Hbox.
Qed.

Lemma get_logs_runs_witness :
  let ctx := user_ctx "get_logs" "1" in
  docker_calls (get_logs ctx "alpha" 500 w1).1 =
    [Exec "alpha" "tail -n500 logs/latest.log"].
Proof.
  intros ctx.
  assert (Hin : VStr "alpha" ∈ [VStr "alpha"; VStr "gamma"]) by constructor.
  destruct (get_logs_runs ctx "alpha" 500 w1 [VStr "alpha"; VStr "gamma"]
              (mc "alpha" "running") eq_refl Hin eq_refl) as (Hcalls & _).
  exact Hcalls.
Defined.

(** X13: [get_logs] does not catch a failure of the backend lookup, the
    NotFound of a container that does not exist included: the exception
    leaves the command, no message is sent and nothing is run. *)
Theorem get_logs_lookup_failure ctx server numlines w allowed e :
  (perm_check ctx w).2 = Ok allowed →
  VStr server ∈ allowed →
  containers_get (docker_client w) (VStr server) = Raise e →
  let after := get_logs ctx server numlines w in
  after.2 = Raise e
  ∧ outbox after.1 = outbox w
  ∧ docker_calls after.1 = docker_calls w
  ∧ forbidden (logfile after.1) = forbidden (logfile w).
Proof.
  intros Hallowed Hin Hget after.
  destruct (get_logs_start ctx server numlines w allowed Hallowed Hin)
    as (w' & Hrun & Hcalls & Hbox & Hacc & Hlog).
  subst after. rewrite Hrun, bind_run. unfold lift. rewrite Hget. by simpl.
Qed.

Lemma get_logs_lookup_failure_witness :
  let ctx := user_ctx "status" "7" in
  let w := world_of (Some doc2) [] in
  (get_logs ctx "alpha" 10 w).2 = Raise NotFound
  ∧ outbox (get_logs ctx "alpha" 10 w).1 = [].
Proof.
  intros ctx w.
  assert (Hin : VStr "alpha" ∈ [VStr "alpha"]) by constructor.
  destruct (get_logs_lookup_failure ctx "alpha" 10 w [VStr "alpha"] NotFound
              eq_refl Hin eq_refl)
    as (Hres & Hbox & _).
  by split.
Defined.

(** ** X15: no command works without a document *)



(** ** X16: what the start-up makes of the permissions file *)

(** X16: the start-up keeps a document exactly when the file holds one.
    It lets the process go on without a document when the file is absent
    and can be created, may not be read, or holds [null] or another JSON
    value that is no document; it stops the process for a file that does
    not parse, that cannot be created, or that cannot be opened for
    another reason.  A file that exists is left as it is, and neither a
    message nor a backend call is made. *)
Theorem start_up_outcomes f dc acc :
  let start_up := load_permissions (initial_world f dc acc) in
  (∀ d : document, json_permissions start_up.1 = Some d ↔ f = Present (Json d))
  ∧ (start_up.2 = Ok tt ∧ (∀ d : document, json_permissions start_up.1 ≠ Some d)
     ↔ f = Absent ∨ (∃ errno strerror, f = Denied errno strerror)
       ∨ f = Present Json_null ∨ ∃ e, f = Present (Json (Other_value e)))
  ∧ (start_up.2 ≠ Ok tt
     ↔ (∃ e, f = Uncreatable e) ∨ (∃ errno strerror, f = Faulty errno strerror)
       ∨ f = Present Zero_bytes ∨ f = Present Malformed)
  ∧ (∀ e, json_permissions start_up.1 = Some (Other_value e)
          ↔ f = Present (Json (Other_value e)))
  ∧ (permissions_file start_up.1 ≠ f → f = Absent)
  ∧ outbox start_up.1 = [] ∧ docker_calls start_up.1 = [].
Proof.
  destruct f as [|e|errno strerror|errno strerror|[|[d|e]| |] ]; simpl;
    repeat split; intros;
    repeat match goal with
           | H : _ ∨ _ |- _ => destruct H
           | H : ∃ _, _ |- _ => destruct H
           | H : _ ∧ _ |- _ => destruct H
           end;
    first [ done | congruence | by eauto 8
          | match goal with
            | H : ∀ d : document, _ ≠ _ |- _ => by destruct (H _ eq_refl)
            end ].
Qed.

(** ** X17, X18: the command line (line 10) *)

Lemma split_eq_length s : length (split_eq s) = S (count_eq s).
Proof.
  induction s as [|c r IH]; [done|]. simpl.
  case_bool_decide; simpl; [by rewrite IH|].
  destruct (split_eq r); simpl in *; lia.
Qed.

Lemma split_eq_none s : count_eq s = 0%nat → split_eq s = [s].
Proof.
  induction s as [|c r IH]; [done|]. simpl.
  case_bool_decide; [done|]. intros Hr. by rewrite IH.
Qed.

Lemma split_eq_at a b :
  count_eq a = 0%nat → split_eq (a +:+ String "="%char b) = a :: split_eq b.
Proof.
  induction a as [|c r IH]; [done|]. simpl.
  case_bool_decide; [done|]. intros Hr. by rewrite IH.
Qed.

Lemma arg_pairs_raises args e : arg_pairs args = Raise e → e = ValueError.
Proof.
  induction args as [|arg rest IH]; [done|]. simpl.
  destruct (String.prefix "--" arg); [|done].
  destruct (split_eq arg) as [|a [|val [|x l] ] ]; try congruence.
  destruct (arg_pairs rest); [done|]. intros [= <-]. by apply IH.
Qed.

Lemma arg_pairs_ok args :
  (∃ pairs, arg_pairs args = Ok pairs) ↔ Forall well_formed_arg args.
Proof.
  induction args as [|arg rest IH]; simpl.
  - split; [constructor|by eexists].
  - rewrite Forall_cons, <- IH. unfold well_formed_arg.
    pose proof (split_eq_length arg) as Hlen.
    destruct (String.prefix "--" arg).
    + destruct (split_eq arg) as [|a [|val [|x l] ] ]; simpl in Hlen.
      * lia.
      * split; [by intros [? ?]|]. intros [Hone _]. specialize (Hone eq_refl). lia.
      * destruct (arg_pairs rest) as [pairs|e].
        -- split; [|by eexists]. intros _. split; [intros _; lia|by eexists].
        -- split; [by intros [? ?]|]. by intros [_ [? ?] ].
      * split; [by intros [? ?]|]. intros [Hone _]. specialize (Hone eq_refl). lia.
    + split; [by intros ?; split|]. by intros [_ ?].
Qed.

Lemma arg_pairs_app l1 l2 p1 p2 :
  arg_pairs l1 = Ok p1 → arg_pairs l2 = Ok p2 → arg_pairs (l1 ++ l2) = Ok (p1 ++ p2).
Proof.
  revert p1. induction l1 as [|arg rest IH]; intros p1; simpl.
  - by intros [= <-].
  - destruct (String.prefix "--" arg); [|by apply IH].
    destruct (split_eq arg) as [|a [|val [|x l] ] ]; try done.
    destruct (arg_pairs rest) as [pairs|e]; [|done].
    intros [= <-] H2. by rewrite (IH pairs eq_refl H2).
Qed.

Lemma arg_pairs_skip l1 l2 arg :
  String.prefix "--" arg = false → arg_pairs (l1 ++ arg :: l2) = arg_pairs (l1 ++ l2).
Proof.
  intros Harg. induction l1 as [|x rest IH]; simpl; [by rewrite Harg|].
  by rewrite IH.
Qed.

Lemma drop_1_app {A} (l1 l2 : list A) : l1 ≠ [] → drop 1 (l1 ++ l2) = drop 1 l1 ++ l2.
Proof. by destruct l1. Qed.

Lemma arg_pairs_option k v :
  count_eq k = 0%nat → count_eq v = 0%nat →
  arg_pairs ["--" +:+ k +:+ "=" +:+ v] = Ok [(k, v)].
Proof.
  intros Hk Hv.
  assert (Hprefix : String.prefix "--" ("--" +:+ k +:+ "=" +:+ v) = true)
    by (simpl; by destruct (k +:+ "=" +:+ v)).
  assert (Hsplit : split_eq ("--" +:+ k +:+ "=" +:+ v) = ["--" +:+ k; v]).
  { change ("--" +:+ k +:+ "=" +:+ v) with (("--" +:+ k) +:+ String "="%char v).
    rewrite split_eq_at by done. by rewrite split_eq_none. }
  unfold arg_pairs. by rewrite Hprefix, Hsplit.
Qed.

(** X17: the command line is accepted exactly when every argument after
    the program name that starts with two dashes has one equals sign,
    neither none nor two; otherwise line 10 raises ValueError, so that one
    such argument stops the process before anything else runs. *)
Theorem arg_dict_accepts argv :
  ((∃ options, arg_dict argv = Ok options) ↔ Forall well_formed_arg (drop 1 argv))
  ∧ (∀ e, arg_dict argv = Raise e → e = ValueError).
Proof.
  unfold arg_dict. split.
  - rewrite <- arg_pairs_ok.
    destruct (arg_pairs (drop 1 argv)) as [pairs|e]; [split; by eexists|].
    split; by intros [? ?].
  - intros e. destruct (arg_pairs (drop 1 argv)) as [pairs|e'] eqn:Hpairs; [done|].
    intros [= <-]. by eapply arg_pairs_raises.
Qed.

(** X18: an option given last on a command line wins over an earlier one
    with the same key: adding [--k=v] at the end sets [k] to [v] and keeps
    the other keys; an argument without the two dashes changes nothing,
    wherever it stands. *)
Theorem arg_dict_last_wins argv options k v :
  argv ≠ [] →
  count_eq k = 0%nat → count_eq v = 0%nat →
  arg_dict argv = Ok options →
  arg_dict (argv ++ ["--" +:+ k +:+ "=" +:+ v]) = Ok (<[k := v]> options)
  ∧ (∀ before after word,
       argv = before ++ after → before ≠ [] → String.prefix "--" word = false →
       arg_dict (before ++ word :: after) = Ok options).
Proof.
  intros Hargv Hk Hv. unfold arg_dict.
  destruct (arg_pairs (drop 1 argv)) as [pairs|e] eqn:Hpairs; [|done].
  intros [= <-]. split.
  - rewrite drop_1_app by done.
    rewrite (arg_pairs_app _ _ pairs [(k, v)] Hpairs (arg_pairs_option k v Hk Hv)).
    by rewrite foldl_app.
  - intros before after word -> Hbefore Hword.
    rewrite drop_1_app in Hpairs by done.
    rewrite drop_1_app by done.
    by rewrite arg_pairs_skip, Hpairs.
Qed.

Lemma arg_dict_last_wins_witness :
  arg_dict ["bot.py"; "--mode=test"; "--mode=live"] = Ok {["mode" := "live"]}.
Proof.
  destruct (arg_dict_last_wins ["bot.py"; "--mode=test"] {["mode" := "test"]}
              "mode" "live") as [Hlast _]; [done|done|done|done|].
  etrans; [exact Hlast|]. by vm_compute.
Defined.

(** ** X19: the detailed report of [status] *)




